(** * shacl-form: property-to-widget resolution and value (de)serialisation

    A shallow embedding of [src/inputs.ts] (the editor classes and
    [inputFactory]) together with the part of [src/config.ts] it reads
    ([Config.lists], [Config.shapesGraph], [Config.language]), and, in the
    module [ConfigClass], of the class [Config] of [src/config.ts] itself,
    with its objects in a heap.

    Conventions of the embedding.
    - JavaScript strings are Rocq strings (8-bit characters); on ASCII text
      string indices and [slice] agree with the UTF-16 ones of the source.
    - A DOM element is a record of its content attributes, its class list,
      and the pieces of internal state the source touches through IDL
      properties: the value of a text control, the checkedness of a
      checkbox, the options and the selection of a [select].  An IDL
      property that reflects a content attribute is written to the
      attribute map; one that the element does not have becomes an expando
      property (it constrains nothing).  Browser-side value sanitisation of
      typed inputs is outside the embedding: the value of an [input] or a
      [textarea] is the string last assigned to it.
    - The [label] element, the CSS classes of the wrapper and the element id
      drawn from the static counter [InputBase.idCtr] only link and decorate
      the control; no method reads them back, and they are left out, except
      for the [required] marking of the label.
    - [undefined] results are [None]; an exception is a [Throw]. *)

From stdpp Require Import gmap strings list.
From Stdlib Require Import ZArith NArith String Ascii DecimalString.

Local Open Scope string_scope.
Local Open Scope Z_scope.

(** ** JavaScript strings and truthiness *)

Module JS.

(** [if (s)] on a string. *)
Definition truthy (s : string) : bool := negb (String.eqb s "").

(** [if (n)] on a number (the integers have no NaN). *)
Definition truthyZ (n : Z) : bool := negb (n =? 0).
Definition truthyN (n : N) : bool := negb (N.eqb n 0).

(** [String(n)] for an integer. *)
Definition String_of_Z (n : Z) : string := NilZero.string_of_int (Z.to_int n).
Definition String_of_N (n : N) : string := NilZero.string_of_uint (N.to_uint n).

(** [s.slice(0, n)]. *)
Definition slice0 (n : nat) (s : string) : string := String.substring 0 n s.

Fixpoint drop (n : nat) (s : string) : string :=
  match n, s with
  | O, _ => s
  | S n', String _ s' => drop n' s'
  | S _, EmptyString => EmptyString
  end.

(** [s.replace(pat, by)] with a string pattern: the first occurrence of
    [pat], wherever it is, is replaced; [s] is returned unchanged when
    there is none. *)
Fixpoint replace (pat by_ s : string) : string :=
  if String.prefix pat s then by_ ++ drop (String.length pat) s
  else match s with
       | EmptyString => EmptyString
       | String c s' => String c (replace pat by_ s')
       end.

(** [s.toLowerCase()] on ASCII letters. *)
Definition lower_ascii (c : ascii) : ascii :=
  let n := nat_of_ascii c in
  if (Nat.leb 65 n && Nat.leb n 90)%bool then ascii_of_nat (n + 32) else c.

Fixpoint toLowerCase (s : string) : string :=
  match s with
  | EmptyString => EmptyString
  | String c s' => String (lower_ascii c) (toLowerCase s')
  end.

(** The outcome of a call that may raise. *)
Inductive Exception := RangeError (message : string).

Inductive Completion (A : Type) :=
| Normal (a : A)
| Throw (e : Exception).
Arguments Normal {A} a.
Arguments Throw {A} e.

End JS.

(** ** Namespace constants *)

(** Modelled from the spec: [src/constants.ts] is not among the sources.  The
    spec names the terms [xsd:integer], [rdf:langString] and [sh:IRI]; the
    prefixes are the W3C namespaces these names abbreviate. *)
Definition PREFIX_SHACL : string := "http://www.w3.org/ns/shacl#".
Definition PREFIX_XSD : string := "http://www.w3.org/2001/XMLSchema#".
Definition PREFIX_RDF : string := "http://www.w3.org/1999/02/22-rdf-syntax-ns#".

(** ** RDF terms (the [n3] data factory) *)

(** Modelled from the spec: the term classes come from the libraries [n3] and
    [@rdfjs/types].  Spec section 3: an RDF term is a NamedNode with its IRI
    or a Literal with a lexical value, a datatype IRI and an optional language
    tag (the empty string when there is none). *)
Record NamedNode := namedNode { iri : string }.

Record Literal := mkLiteral {
  lexical : string;
  language : string;
  datatype_of : NamedNode
}.

Inductive Term :=
| TermNamedNode (n : NamedNode)
| TermLiteral (l : Literal).

#[global] Instance NamedNode_eq_dec : EqDecision NamedNode.
Proof. solve_decision. Defined.
#[global] Instance Literal_eq_dec : EqDecision Literal.
Proof. solve_decision. Defined.
#[global] Instance Term_eq_dec : EqDecision Term.
Proof. solve_decision. Defined.

(** [term.value] *)
Definition value (t : Term) : string :=
  match t with
  | TermNamedNode n => iri n
  | TermLiteral l => lexical l
  end.

Module DataFactory.

Definition xsd_string : NamedNode := namedNode (PREFIX_XSD ++ "string").
Definition rdf_langString : NamedNode := namedNode (PREFIX_RDF ++ "langString").

(** The second argument of [DataFactory.literal]: a language tag (a
    string) or a datatype (a NamedNode or [undefined]). *)
Inductive LanguageOrDataType :=
| Language (tag : string)
| DataType (d : option NamedNode).

(** [DataFactory.literal(value, languageOrDataType)] for a string value: a
    string second argument makes a language-tagged literal (the tag is
    stored in lower case); otherwise the literal carries the datatype, and
    is a plain [xsd:string] literal when there is none. *)
Definition literal (v : string) (lod : LanguageOrDataType) : Literal :=
  match lod with
  | Language tag => mkLiteral v (JS.toLowerCase tag) rdf_langString
  | DataType None => mkLiteral v "" xsd_string
  | DataType (Some d) =>
      if String.eqb (iri d) "" then mkLiteral v "" xsd_string
      else mkLiteral v "" d
  end.

End DataFactory.

(** ** The JavaScript runtime *)

(** A JavaScript number: not-a-number, an infinity, or a finite double.  The
    finite doubles, their decimal rendering and the two built-ins that parse
    text ([parseFloat] and the [Date] constructor) belong to the engine and
    are parameters of the development. *)
Inductive number (float : Type) :=
| NaN
| Infinity (negative : bool)
| Finite (x : float).
Arguments NaN {float}.
Arguments Infinity {float} negative.
Arguments Finite {float} x.

Class Runtime := {
  float : Type;
  (** [String(x)] for a finite [x] *)
  float_toString : float → string;
  (** [Number.isInteger(x)] for a finite [x] *)
  float_isInteger : float → bool;
  (** [parseFloat(s)] *)
  parseFloat : string → number float;
  (** [new Date(s).toISOString()]; [None] when the date is invalid and
      [toISOString] raises a RangeError *)
  Date_toISOString : string → option string
}.

Section Numbers.
Context `{RT : Runtime}.

(** [String(n)], also the rendering inside a template literal. *)
Definition Number_toString (n : number float) : string :=
  match n with
  | NaN => "NaN"
  | Infinity false => "Infinity"
  | Infinity true => "-Infinity"
  | Finite x => float_toString x
  end.

(** [DataFactory.literal(value, dataType)] for a number value.  Without a
    datatype the factory picks [xsd:integer] or [xsd:double] and writes the
    infinities as [INF] and [-INF]; with one, the lexical form is the
    rendering of the number. *)
Definition literal_of_number (n : number float) (d : option NamedNode) : Literal :=
  let dt := match d with Some d => iri d | None => "" end in
  if String.eqb dt "" then
    match n with
    | Finite x =>
        mkLiteral (float_toString x) ""
          (namedNode (PREFIX_XSD ++ (if float_isInteger x then "integer" else "double")))
    | NaN => mkLiteral "NaN" "" (namedNode (PREFIX_XSD ++ "double"))
    | Infinity neg =>
        mkLiteral (if neg then "-INF" else "INF") "" (namedNode (PREFIX_XSD ++ "double"))
    end
  else mkLiteral (Number_toString n) "" (namedNode dt).
End Numbers.

(** ** DOM elements *)

Inductive TagName := INPUT | TEXTAREA | SELECT.

(** An [option] element: its [value] attribute when it has one, and its
    text. *)
Record HTMLOptionElement := mkOption {
  option_value_attr : option string;
  option_text : string
}.

(** [option.value]: the attribute, else the text. *)
Definition option_value (o : HTMLOptionElement) : string :=
  match option_value_attr o with
  | Some v => v
  | None => option_text o
  end.

Record Element := mkElement {
  tagName : TagName;
  attributes : gmap string string;
  expando : gmap string string;
  classList : list string;
  (** the value of an [input] or [textarea] once a script has assigned it *)
  dirty_value : option string;
  (** the checkedness of a checkbox *)
  checked : bool;
  (** the options of a [select] and the index of the selected one *)
  options : list HTMLOptionElement;
  selectedIndex : option nat
}.

Module DOM.

(** [document.createElement(tag)] *)
Definition createElement (t : TagName) : Element :=
  mkElement t ∅ ∅ [] None false [] None.

Definition with_attributes (a : gmap string string) (e : Element) : Element :=
  mkElement (tagName e) a (expando e) (classList e) (dirty_value e)
            (checked e) (options e) (selectedIndex e).

Definition with_expando (x : gmap string string) (e : Element) : Element :=
  mkElement (tagName e) (attributes e) x (classList e) (dirty_value e)
            (checked e) (options e) (selectedIndex e).

Definition with_classList (c : list string) (e : Element) : Element :=
  mkElement (tagName e) (attributes e) (expando e) c (dirty_value e)
            (checked e) (options e) (selectedIndex e).

Definition with_dirty_value (v : option string) (e : Element) : Element :=
  mkElement (tagName e) (attributes e) (expando e) (classList e) v
            (checked e) (options e) (selectedIndex e).

(** [checkbox.checked = b] *)
Definition set_checked (b : bool) (e : Element) : Element :=
  mkElement (tagName e) (attributes e) (expando e) (classList e) (dirty_value e)
            b (options e) (selectedIndex e).

Definition with_selection (o : list HTMLOptionElement) (i : option nat)
    (e : Element) : Element :=
  mkElement (tagName e) (attributes e) (expando e) (classList e) (dirty_value e)
            (checked e) o i.

Definition setAttribute (name v : string) (e : Element) : Element :=
  with_attributes (<[name := v]> (attributes e)) e.

Definition removeAttribute (name : string) (e : Element) : Element :=
  with_attributes (delete name (attributes e)) e.

Definition getAttribute (name : string) (e : Element) : option string :=
  attributes e !! name.

(** [e.classList.add(c1, c2, ...)] *)
Definition classList_add (cs : list string) (e : Element) : Element :=
  with_classList (classList e ++ filter (λ c, c ∉ classList e) cs) e.

(** The content attribute that an IDL property of the element reflects,
    for the properties the source assigns.  An [input] has all of them; a
    [textarea] has the length limits, [rows], [placeholder] and [title] but
    neither [pattern] nor [type], [min], [max], [step]; a [select] has
    [title] only. *)
Definition reflected (t : TagName) (prop : string) : option string :=
  match t with
  | INPUT =>
      if bool_decide (prop ∈ ["type"; "pattern"; "min"; "max"; "step"; "placeholder"; "title"])
      then Some prop
      else if String.eqb prop "minLength" then Some "minlength"
      else if String.eqb prop "maxLength" then Some "maxlength"
      else None
  | TEXTAREA =>
      if bool_decide (prop ∈ ["rows"; "placeholder"; "title"]) then Some prop
      else if String.eqb prop "minLength" then Some "minlength"
      else if String.eqb prop "maxLength" then Some "maxlength"
      else None
  | SELECT =>
      if String.eqb prop "title" then Some prop else None
  end.

(** [e.prop = v] for these properties. *)
Definition set_property (prop v : string) (e : Element) : Element :=
  match reflected (tagName e) prop with
  | Some a => setAttribute a v e
  | None => with_expando (<[prop := v]> (expando e)) e
  end.

(** [e.dataset.path = v] *)
Definition set_dataset_path (v : string) (e : Element) : Element :=
  setAttribute "data-path" v e.

(** [input.type]: the [type] attribute, the text state when it is missing. *)
Definition type (e : Element) : string :=
  match tagName e with
  | INPUT => default "text" (attributes e !! "type")
  | TEXTAREA => "textarea"
  | SELECT => "select-one"
  end.

(** [e.value]: for a text control the assigned value, or, for an [input]
    that was never assigned, its [value] attribute; for a [select] the
    value of the selected option, the empty string when none is. *)
Definition get_value (e : Element) : string :=
  match tagName e with
  | INPUT =>
      match dirty_value e with
      | Some v => v
      | None => default "" (attributes e !! "value")
      end
  | TEXTAREA => default "" (dirty_value e)
  | SELECT =>
      match selectedIndex e with
      | Some i => default "" (option_value <$> options e !! i)
      | None => ""
      end
  end.

(** [e.value = v]: a text control stores [v]; a [select] selects its first
    option whose value is [v], and none when there is no such option. *)
Definition set_value (v : string) (e : Element) : Element :=
  match tagName e with
  | SELECT =>
      with_selection (options e)
        (fst <$> list_find (λ o, option_value o = v) (options e)) e
  | _ => with_dirty_value (Some v) e
  end.

(** [select.options.add(o)] and [select.appendChild(o)]: the option goes
    last; a drop-down without a selected option then selects its first
    option. *)
Definition add_option (o : HTMLOptionElement) (e : Element) : Element :=
  with_selection (options e ++ [o])
    (match selectedIndex e with
     | Some i => Some i
     | None => Some 0%nat
     end) e.

(** The user picks the option at index [i] of a drop-down. *)
Definition user_select (i : nat) (e : Element) : Element :=
  if bool_decide (i < List.length (options e))%nat
  then with_selection (options e) (Some i) e
  else e.

End DOM.

(** ** Configuration and property shapes *)

(** Modelled from the spec: the [n3] Store is an external library.  The list
    materialisation (spec section 4.3) uses the shapes graph for one thing,
    the label of a term in a display language; the graph is seen through
    that lookup. *)
Record Store := mkStore {
  findLabel : Term → option string → option string
}.

(** [src/config.ts], the members that [inputs.ts] reads: [lists] is the
    record from list ids to the extracted RDF lists. *)
Record Config := mkConfig {
  lists : gmap string (list Term);
  shapesGraph : Store;
  config_language : option string
}.

(** Modelled from the spec: [src/property-spec.ts] is not among the sources.
    The fields are those of spec section 3, with the types the source uses
    them at: terms for [datatype], [class], [nodeKind], [description],
    [defaultValue] and the members of [languageIn], strings for [pattern]
    and [shaclIn].  Cardinalities and length limits are natural numbers, the
    value-range facets integers. *)
Record ShaclPropertySpec := mkSpec {
  label : string;
  path : string;
  description : option Literal;
  minCount : option N;
  maxCount : option N;
  minLength : option N;
  maxLength : option N;
  pattern : option string;
  minInclusive : option Z;
  maxInclusive : option Z;
  minExclusive : option Z;
  maxExclusive : option Z;
  singleLine : option bool;
  nodeKind : option NamedNode;
  class : option NamedNode;
  datatype : option NamedNode;
  languageIn : option (list Term);
  shaclIn : option string;
  defaultValue : option Term;
  config : Config
}.

(** [InputListEntry] *)
Record InputListEntry := mkEntry {
  entry_value : Term;
  entry_label : option string
}.

(** Modelled from the spec: [createInputListEntries] of [src/util.ts] is not
    among the sources.  Spec section 4.3: the entries follow the order of the
    RDF list, each with the label found for it in the requested language when
    there is one. *)
Definition createInputListEntries (terms : list Term) (graph : Store)
    (lang : option string) : list InputListEntry :=
  map (λ t, mkEntry t (findLabel graph t lang)) terms.

(** ** The editor classes *)

Inductive EditorClass :=
| InputDate | InputText | InputLangString | InputBoolean | InputNumber | InputList.

(** An instance of a subclass of [InputBase]: its class, the fields of the
    base class, whether its label carries the [required] class, and the
    language chooser of an [InputLangString]. *)
Record InputBase := mkInput {
  class_of : EditorClass;
  property : ShaclPropertySpec;
  editor : Element;
  required : bool;
  label_required : bool;
  langChooser : option Element
}.

Definition with_editor (e : Element) (w : InputBase) : InputBase :=
  mkInput (class_of w) (property w) e (required w) (label_required w) (langChooser w).

Definition with_langChooser (c : option Element) (w : InputBase) : InputBase :=
  mkInput (class_of w) (property w) (editor w) (required w) (label_required w) c.

Definition with_label_required (b : bool) (w : InputBase) : InputBase :=
  mkInput (class_of w) (property w) (editor w) (required w) b (langChooser w).

(** [property.datatype?.value === iri] *)
Definition datatype_is (p : ShaclPropertySpec) (i : string) : bool :=
  match datatype p with
  | Some d => String.eqb (iri d) i
  | None => false
  end.

(** [this.property.class || this.property.nodeKind?.id === `${PREFIX_SHACL}IRI`] *)
Definition wants_iri (p : ShaclPropertySpec) : bool :=
  match class p with
  | Some _ => true
  | None =>
      match nodeKind p with
      | Some k => String.eqb (iri k) (PREFIX_SHACL ++ "IRI")
      | None => false
      end
  end.

Module Base.

(** The constructor of [InputBase], given the class being instantiated and
    its [createEditor]. *)
Definition new (cls : EditorClass) (createEditor : ShaclPropertySpec → Element)
    (p : ShaclPropertySpec) : InputBase :=
  let required :=
    match minCount p with
    | Some n => N.ltb 0 n
    | None => false
    end in
  let e := createEditor p in
  let e := DOM.setAttribute "value"
             (match defaultValue p with
              | Some t => if JS.truthy (value t) then value t else ""
              | None => ""
              end) e in
  let e := DOM.classList_add ["editor"; "form-control"] e in
  let e := DOM.set_dataset_path (path p) e in
  let placeholder :=
    match description p with
    | Some d => Some (lexical d)
    | None =>
        match pattern p with
        | Some s => if JS.truthy s then Some s else None
        | None => None
        end
    end in
  let e :=
    match placeholder with
    | Some s => if JS.truthy s then DOM.setAttribute "placeholder" s e else e
    | None => e
    end in
  let e := if required then DOM.setAttribute "required" "true" e else e in
  mkInput cls p e required required None.

(** [InputBase.setValue] *)
Definition setValue (v : Term) (w : InputBase) : InputBase :=
  with_editor (DOM.set_value (value v) (editor w)) w.

End Base.

Module InputDate.

Definition createEditor (p : ShaclPropertySpec) : Element :=
  let input := DOM.createElement INPUT in
  let input :=
    if datatype_is p (PREFIX_XSD ++ "dateTime")
    then DOM.set_property "type" "datetime-local" input
    else DOM.set_property "type" "date" input in
  DOM.classList_add ["pr-0"] input.

Definition new (p : ShaclPropertySpec) : InputBase :=
  Base.new InputDate createEditor p.

Section WithRuntime.
Context `{RT : Runtime}.

(** [new Date(value.value).toISOString()] is one call of the engine; it
    raises on an invalid date, before anything is assigned. *)
Definition setValue (v : Term) (w : InputBase) : JS.Completion InputBase :=
  match Date_toISOString (value v) with
  | None => JS.Throw (JS.RangeError "Invalid time value")
  | Some isoDate =>
      let isoDate :=
        if String.eqb (DOM.type (editor w)) "datetime-local"
        then JS.slice0 19 isoDate
        else JS.slice0 10 isoDate in
      JS.Normal
        (Base.setValue
           (TermLiteral
              (DataFactory.literal isoDate (DataFactory.DataType (datatype (property w)))))
           w)
  end.
End WithRuntime.

Definition toRDFObject (w : InputBase) : option Term :=
  if JS.truthy (DOM.get_value (editor w))
  then Some (TermLiteral
               (DataFactory.literal (DOM.get_value (editor w))
                  (DataFactory.DataType (datatype (property w)))))
  else None.

End InputDate.

Module InputText.

Definition createEditor (p : ShaclPropertySpec) : Element :=
  match singleLine p with
  | Some false => DOM.set_property "rows" "5" (DOM.createElement TEXTAREA)
  | _ => DOM.set_property "type" "text" (DOM.createElement INPUT)
  end.

(** The constructor body, run for [InputText] and for its subclass. *)
Definition construct (cls : EditorClass) (p : ShaclPropertySpec) : InputBase :=
  let w := Base.new cls createEditor p in
  let input := editor w in
  let input :=
    match minLength p with
    | Some n => if JS.truthyN n then DOM.set_property "minLength" (JS.String_of_N n) input
                else input
    | None => input
    end in
  let input :=
    match maxLength p with
    | Some n => if JS.truthyN n then DOM.set_property "maxLength" (JS.String_of_N n) input
                else input
    | None => input
    end in
  let input :=
    match pattern p with
    | Some s => if JS.truthy s then DOM.set_property "pattern" s input else input
    | None => input
    end in
  with_editor input w.

Definition new (p : ShaclPropertySpec) : InputBase := construct InputText p.

Definition toRDFObject (w : InputBase) : option Term :=
  if JS.truthy (DOM.get_value (editor w)) then
    if wants_iri (property w)
    then Some (TermNamedNode (namedNode (DOM.get_value (editor w))))
    else Some (TermLiteral
                 (DataFactory.literal (DOM.get_value (editor w))
                    (DataFactory.DataType (datatype (property w)))))
  else None.

End InputText.

Module InputLangString.

(** The listener that turns a change of the chooser into a change event of
    the text control has no effect on the state and is not modelled. *)
Definition createLangChooser (p : ShaclPropertySpec) : Element :=
  let chooser :=
    match languageIn p with
    | Some ((_ :: _) as langs) =>
        fold_left (λ chooser lang, DOM.add_option (mkOption None (value lang)) chooser)
                  langs (DOM.createElement SELECT)
    | _ => DOM.set_property "maxLength" "5" (DOM.createElement INPUT)
    end in
  let chooser := DOM.set_property "title" "Language of the text" chooser in
  let chooser := DOM.set_property "placeholder" "lang?" chooser in
  DOM.classList_add ["lang-chooser"] chooser.

Definition new (p : ShaclPropertySpec) : InputBase :=
  let w := InputText.construct InputLangString p in
  with_langChooser (Some (createLangChooser p)) w.

(** [this.langChooser.value] *)
Definition chooser_value (w : InputBase) : string :=
  match langChooser w with
  | Some c => DOM.get_value c
  | None => ""
  end.

Definition setValue (v : Term) (w : InputBase) : InputBase :=
  let w := Base.setValue v w in
  match v with
  | TermLiteral l =>
      with_langChooser (DOM.set_value (language l) <$> langChooser w) w
  | TermNamedNode _ => w
  end.

Definition toRDFObject (w : InputBase) : option Term :=
  if JS.truthy (DOM.get_value (editor w)) then
    Some (TermLiteral
            (DataFactory.literal (DOM.get_value (editor w))
               (if JS.truthy (chooser_value w)
                then DataFactory.Language (chooser_value w)
                else DataFactory.DataType (datatype (property w)))))
  else None.

End InputLangString.

Module InputBoolean.

Definition createEditor (p : ShaclPropertySpec) : Element :=
  let input := DOM.set_property "type" "checkbox" (DOM.createElement INPUT) in
  DOM.classList_add ["ml-0"] input.

Definition new (p : ShaclPropertySpec) : InputBase :=
  let w := Base.new InputBoolean createEditor p in
  with_label_required false (with_editor (DOM.removeAttribute "required" (editor w)) w).

Definition setValue (v : Term) (w : InputBase) : InputBase :=
  match v with
  | TermLiteral l =>
      with_editor (DOM.set_checked (String.eqb (lexical l) "true") (editor w)) w
  | TermNamedNode _ => w
  end.

Definition toRDFObject (w : InputBase) : option Term :=
  let checkbox := editor w in
  if (checked checkbox || required w)%bool
  then Some (TermLiteral
               (DataFactory.literal (if checked checkbox then "true" else "false")
                  (DataFactory.DataType (datatype (property w)))))
  else None.

End InputBoolean.

Module InputNumber.

Definition createEditor (p : ShaclPropertySpec) : Element :=
  let input := DOM.set_property "type" "number" (DOM.createElement INPUT) in
  DOM.classList_add ["pr-0"] input.

(** [a ? a : b ? f(b) : undefined] on optional numbers. *)
Definition bound (inclusive exclusive : option Z) (shift : Z → Z) : option Z :=
  match inclusive with
  | Some a => if JS.truthyZ a then Some a else
                match exclusive with
                | Some b => if JS.truthyZ b then Some (shift b) else None
                | None => None
                end
  | None =>
      match exclusive with
      | Some b => if JS.truthyZ b then Some (shift b) else None
      | None => None
      end
  end.

Definition new (p : ShaclPropertySpec) : InputBase :=
  let w := Base.new InputNumber createEditor p in
  let input := editor w in
  let min := bound (minInclusive p) (minExclusive p) (λ b, b + 1) in
  let max := bound (maxInclusive p) (maxExclusive p) (λ b, b - 1) in
  let input :=
    match min with
    | Some m => if JS.truthyZ m then DOM.set_property "min" (JS.String_of_Z m) input
                else input
    | None => input
    end in
  let input :=
    match max with
    | Some m => if JS.truthyZ m then DOM.set_property "max" (JS.String_of_Z m) input
                else input
    | None => input
    end in
  let input :=
    if negb (datatype_is p (PREFIX_XSD ++ "integer"))
    then DOM.set_property "step" "0.1" input
    else input in
  with_editor input w.

Section WithRuntime.
Context `{RT : Runtime}.

Definition toRDFObject (w : InputBase) : option Term :=
  if JS.truthy (DOM.get_value (editor w))
  then Some (TermLiteral
               (literal_of_number (parseFloat (DOM.get_value (editor w)))
                  (datatype (property w))))
  else None.
End WithRuntime.

End InputNumber.

Module InputList.

Definition createEditor (p : ShaclPropertySpec) : Element :=
  DOM.createElement SELECT.

(** The [option] element made for a list entry: its text is the label,
    or the value when there is no label; its value is the value. *)
Definition entry_option (item : InputListEntry) : HTMLOptionElement :=
  let text :=
    match entry_label item with
    | Some l => if JS.truthy l then l else value (entry_value item)
    | None => value (entry_value item)
    end in
  mkOption (Some (value (entry_value item))) text.

Definition setListEntries (entries : list InputListEntry) (w : InputBase) : InputBase :=
  let select := editor w in
  (* add an empty element *)
  let select := DOM.add_option (mkOption (Some "") "") select in
  let select :=
    fold_left (λ select item, DOM.add_option (entry_option item) select)
              entries select in
  with_editor select w.

Definition new (p : ShaclPropertySpec) (listEntries : option (list InputListEntry))
    : InputBase :=
  let w := Base.new InputList createEditor p in
  match listEntries with
  | Some entries => setListEntries entries w
  | None => w
  end.

Definition toRDFObject (w : InputBase) : option Term :=
  if JS.truthy (DOM.get_value (editor w)) then
    if wants_iri (property w)
    then Some (TermNamedNode (namedNode (DOM.get_value (editor w))))
    else Some (TermLiteral
                 (DataFactory.literal (DOM.get_value (editor w))
                    (DataFactory.DataType (datatype (property w)))))
  else None.

End InputList.

(** ** Virtual dispatch *)

Section Dispatch.
Context `{RT : Runtime}.

(** [w.toRDFObject()]; [None] is [undefined]. *)
Definition toRDFObject (w : InputBase) : option Term :=
  match class_of w with
  | InputDate => InputDate.toRDFObject w
  | InputText => InputText.toRDFObject w
  | InputLangString => InputLangString.toRDFObject w
  | InputBoolean => InputBoolean.toRDFObject w
  | InputNumber => InputNumber.toRDFObject w
  | InputList => InputList.toRDFObject w
  end.

(** [w.setValue(v)]: the object after the call, or the exception raised. *)
Definition setValue (v : Term) (w : InputBase) : JS.Completion InputBase :=
  match class_of w with
  | InputDate => InputDate.setValue v w
  | InputLangString => JS.Normal (InputLangString.setValue v w)
  | InputBoolean => JS.Normal (InputBoolean.setValue v w)
  | InputText | InputNumber | InputList => JS.Normal (Base.setValue v w)
  end.
End Dispatch.

(** ** The factory *)

(** What the factory writes to the console: the arguments of its one
    [console.error] call. *)
Inductive ConsoleMessage :=
| list_not_found (shaclIn : string) (existing : gmap string (list Term)).

(** [property.languageIn?.length] as a condition. *)
Definition has_languageIn (p : ShaclPropertySpec) : bool :=
  match languageIn p with
  | Some (_ :: _) => true
  | _ => false
  end.

(** [property.datatype?.value.replace(PREFIX_XSD, '')] *)
Definition stripped_datatype (p : ShaclPropertySpec) : option string :=
  (λ d, JS.replace PREFIX_XSD "" (iri d)) <$> datatype p.

(** A [case] label of the [switch]: strict equality with the scrutinee. *)
Definition case (scrutinee : option string) (lbl : string) : bool :=
  match scrutinee with
  | Some s => String.eqb s lbl
  | None => false
  end.

(** [inputFactory(property)]: the editor built and the console output. *)
Definition inputFactory (p : ShaclPropertySpec) : InputBase * list ConsoleMessage :=
  let rest (console : list ConsoleMessage) : InputBase * list ConsoleMessage :=
    (* check if it a langstring *)
    if (datatype_is p (PREFIX_RDF ++ "langString") || has_languageIn p)%bool
    then (InputLangString.new p, console)
    else
      let s := stripped_datatype p in
      if case s "string" then (InputText.new p, console)
      else if (case s "integer" || case s "float" || case s "double" || case s "decimal")%bool
      then (InputNumber.new p, console)
      else if (case s "date" || case s "dateTime")%bool then (InputDate.new p, console)
      else if case s "boolean" then (InputBoolean.new p, console)
      else
        (* nothing found, fallback to 'text' *)
        (InputText.new p, console) in
  (* check if it is a list *)
  match shaclIn p with
  | Some i =>
      if JS.truthy i then
        match lists (config p) !! i with
        | Some ((_ :: _) as l) =>
            (InputList.new p
               (Some (createInputListEntries l (shapesGraph (config p))
                        (config_language (config p)))),
             [])
        | _ => rest [list_not_found i (lists (config p))]
        end
      else rest []
  | None => rest []
  end.

(** ** The resolver as the specification words it *)

Inductive EditorKind := List | LangString | Text | Number | Date | Boolean.

Definition kind_of (c : EditorClass) : EditorKind :=
  match c with
  | InputDate => Date
  | InputText => Text
  | InputLangString => LangString
  | InputBoolean => Boolean
  | InputNumber => Number
  | InputList => List
  end.

(** The materialized list of [spec.shaclIn], when [shaclIn] is set (a
    non-empty id, as everywhere in the source where a string is tested). *)
Definition materialized_list (p : ShaclPropertySpec) : option (list Term) :=
  match shaclIn p with
  | Some i => if JS.truthy i then lists (config p) !! i else None
  | None => None
  end.

(** A list that is present and has a member. *)
Definition non_empty {A : Type} (o : option (list A)) : bool :=
  match o with
  | Some (_ :: _) => true
  | _ => false
  end.

(** Spec section 4.1, rules 2 to 4; the first rule that applies decides. *)
Definition resolve_without_list (p : ShaclPropertySpec) : EditorKind :=
  let xsd (name : string) := stripped_datatype p = Some name in
  if bool_decide (datatype p = Some DataFactory.rdf_langString
                  ∨ non_empty (languageIn p) = true) then LangString
  else if bool_decide (xsd "string") then Text
  else if bool_decide (xsd "integer" ∨ xsd "float" ∨ xsd "double" ∨ xsd "decimal")
  then Number
  else if bool_decide (xsd "date" ∨ xsd "dateTime") then Date
  else if bool_decide (xsd "boolean") then Boolean
  else Text.

(** Spec section 4.1: rule 1, then the others. *)
Definition resolve (p : ShaclPropertySpec) : EditorKind :=
  if non_empty (materialized_list p) then List
  else resolve_without_list p.

(** ** An engine for the examples *)

(** The theorems below hold for every [Runtime].  To run them on concrete
    inputs this module provides a small one.  It agrees with ECMAScript on
    the inputs the examples use: a string that begins no numeric literal
    parses to NaN and an optional sign followed by digits to that integer (a
    fraction or an exponent after the digits is not read); the [Date]
    constructor accepts a calendar date [YYYY-MM-DD], taken as midnight UTC,
    and the UTC form [YYYY-MM-DDTHH:mm:ss.sssZ], and every other string,
    the empty one included, is an invalid date. *)
Module Engine.

Definition is_digit (c : ascii) : bool :=
  let n := nat_of_ascii c in (Nat.leb 48 n && Nat.leb n 57)%bool.

(** White space that [parseFloat] skips. *)
Definition is_blank (c : ascii) : bool :=
  let n := nat_of_ascii c in
  (Nat.eqb n 32 || (Nat.leb 9 n && Nat.leb n 13))%bool.

Fixpoint trimStart (s : string) : string :=
  match s with
  | String c s' => if is_blank c then trimStart s' else s
  | EmptyString => s
  end.

(** The digits at the front of [s], read as a number, [None] without any. *)
Fixpoint leading_digits (acc : option Z) (s : string) : option Z :=
  match s with
  | String c s' =>
      if is_digit c
      then leading_digits
             (Some (10 * default 0 acc + Z.of_nat (nat_of_ascii c - 48))) s'
      else acc
  | EmptyString => acc
  end.

Definition unsigned_literal (negative : bool) (s : string) : number Z :=
  if String.prefix "Infinity" s then Infinity negative
  else match leading_digits None s with
       | Some n => Finite (if negative then - n else n)
       | None => NaN
       end.

Definition parse_float (s : string) : number Z :=
  match trimStart s with
  | String "+" s' => unsigned_literal false s'
  | String "-" s' => unsigned_literal true s'
  | s' => unsigned_literal false s'
  end.

(** [shape t s]: [s] has the length of the template [t], a digit wherever
    [t] has [d], and the character of [t] elsewhere. *)
Fixpoint shape (t s : string) : bool :=
  match t, s with
  | EmptyString, EmptyString => true
  | String "d" t', String c s' => (is_digit c && shape t' s')%bool
  | String a t', String c s' => (Ascii.eqb a c && shape t' s')%bool
  | _, _ => false
  end.

Definition field (start len : nat) (s : string) : Z :=
  default 0 (leading_digits None (String.substring start len s)).

Definition days_in_month (y m : Z) : Z :=
  if bool_decide (m ∈ [4; 6; 9; 11]) then 30
  else if m =? 2 then
    if ((y mod 4 =? 0) && (negb (y mod 100 =? 0) || (y mod 400 =? 0)))%bool
    then 29 else 28
  else 31.

Definition valid_date (s : string) : bool :=
  let y := field 0 4 s in
  let m := field 5 2 s in
  let d := field 8 2 s in
  ((1 <=? m) && (m <=? 12) && (1 <=? d) && (d <=? days_in_month y m))%bool.

Definition valid_time (s : string) : bool :=
  ((field 11 2 s <? 24) && (field 14 2 s <? 60) && (field 17 2 s <? 60))%bool.

Definition to_iso (s : string) : option string :=
  if (shape "dddd-dd-dd" s && valid_date s)%bool
  then Some (s ++ "T00:00:00.000Z")
  else if (shape "dddd-dd-ddTdd:dd:dd.dddZ" s && valid_date s && valid_time s)%bool
  then Some s
  else None.

#[local] Instance runtime : Runtime := {|
  float := Z;
  float_toString := JS.String_of_Z;
  float_isInteger := λ _, true;
  parseFloat := parse_float;
  Date_toISOString := to_iso
|}.

End Engine.

(** ** Sample data for the examples *)

Module Sample.

Definition xsd (name : string) : NamedNode := namedNode (PREFIX_XSD ++ name).

Definition noLabels : Store := mkStore (λ _ _, None).

Definition emptyConfig : Config := mkConfig ∅ noLabels (Some "en").

(** A property shape with a path and nothing else. *)
Definition bare : ShaclPropertySpec :=
  mkSpec "name" "http://example.org/name" None None None None None None
         None None None None None None None None None None None emptyConfig.

Definition with_datatype (d : NamedNode) (p : ShaclPropertySpec) : ShaclPropertySpec :=
  mkSpec (label p) (path p) (description p) (minCount p) (maxCount p)
         (minLength p) (maxLength p) (pattern p) (minInclusive p) (maxInclusive p)
         (minExclusive p) (maxExclusive p) (singleLine p) (nodeKind p) (class p)
         (Some d) (languageIn p) (shaclIn p) (defaultValue p) (config p).

Definition with_shaclIn (i : string) (lists : gmap string (list Term))
    (p : ShaclPropertySpec) : ShaclPropertySpec :=
  mkSpec (label p) (path p) (description p) (minCount p) (maxCount p)
         (minLength p) (maxLength p) (pattern p) (minInclusive p) (maxInclusive p)
         (minExclusive p) (maxExclusive p) (singleLine p) (nodeKind p) (class p)
         (datatype p) (languageIn p) (Some i) (defaultValue p)
         (mkConfig lists (shapesGraph (config p)) (config_language (config p))).

Definition with_languageIn (langs : list Term) (p : ShaclPropertySpec)
    : ShaclPropertySpec :=
  mkSpec (label p) (path p) (description p) (minCount p) (maxCount p)
         (minLength p) (maxLength p) (pattern p) (minInclusive p) (maxInclusive p)
         (minExclusive p) (maxExclusive p) (singleLine p) (nodeKind p) (class p)
         (datatype p) (Some langs) (shaclIn p) (defaultValue p) (config p).

Definition with_minCount (n : N) (p : ShaclPropertySpec) : ShaclPropertySpec :=
  mkSpec (label p) (path p) (description p) (Some n) (maxCount p)
         (minLength p) (maxLength p) (pattern p) (minInclusive p) (maxInclusive p)
         (minExclusive p) (maxExclusive p) (singleLine p) (nodeKind p) (class p)
         (datatype p) (languageIn p) (shaclIn p) (defaultValue p) (config p).

Definition with_class (c : NamedNode) (p : ShaclPropertySpec) : ShaclPropertySpec :=
  mkSpec (label p) (path p) (description p) (minCount p) (maxCount p)
         (minLength p) (maxLength p) (pattern p) (minInclusive p) (maxInclusive p)
         (minExclusive p) (maxExclusive p) (singleLine p) (nodeKind p) (Some c)
         (datatype p) (languageIn p) (shaclIn p) (defaultValue p) (config p).

(** [minInclusive] and [maxExclusive] *)
Definition with_range (lo hi : Z) (p : ShaclPropertySpec) : ShaclPropertySpec :=
  mkSpec (label p) (path p) (description p) (minCount p) (maxCount p)
         (minLength p) (maxLength p) (pattern p) (Some lo) (maxInclusive p)
         (minExclusive p) (Some hi) (singleLine p) (nodeKind p) (class p)
         (datatype p) (languageIn p) (shaclIn p) (defaultValue p) (config p).

Definition with_maxLength (n : N) (p : ShaclPropertySpec) : ShaclPropertySpec :=
  mkSpec (label p) (path p) (description p) (minCount p) (maxCount p)
         (minLength p) (Some n) (pattern p) (minInclusive p) (maxInclusive p)
         (minExclusive p) (maxExclusive p) (singleLine p) (nodeKind p) (class p)
         (datatype p) (languageIn p) (shaclIn p) (defaultValue p) (config p).

Definition with_pattern (r : string) (p : ShaclPropertySpec) : ShaclPropertySpec :=
  mkSpec (label p) (path p) (description p) (minCount p) (maxCount p)
         (minLength p) (maxLength p) (Some r) (minInclusive p) (maxInclusive p)
         (minExclusive p) (maxExclusive p) (singleLine p) (nodeKind p) (class p)
         (datatype p) (languageIn p) (shaclIn p) (defaultValue p) (config p).

Definition with_singleLine (b : bool) (p : ShaclPropertySpec) : ShaclPropertySpec :=
  mkSpec (label p) (path p) (description p) (minCount p) (maxCount p)
         (minLength p) (maxLength p) (pattern p) (minInclusive p) (maxInclusive p)
         (minExclusive p) (maxExclusive p) (Some b) (nodeKind p) (class p)
         (datatype p) (languageIn p) (shaclIn p) (defaultValue p) (config p).

Definition plain (s : string) : Term :=
  TermLiteral (mkLiteral s "" DataFactory.xsd_string).

Definition tagged (s tag : string) : Term :=
  TermLiteral (mkLiteral s tag DataFactory.rdf_langString).

End Sample.

(** ** Editors and their user-interface states *)

(** [same_control e0 e]: [e] is the element [e0] after user interaction or
    value assignments: same tag, attributes and options, any value,
    checkedness and selection. *)
Definition same_control (e0 e : Element) : Prop :=
  tagName e = tagName e0 ∧ attributes e = attributes e0 ∧ options e = options e0.

(** [state_of w0 w]: [w] is the editor [w0] in some user-interface state. *)
Definition state_of (w0 w : InputBase) : Prop :=
  class_of w = class_of w0
  ∧ property w = property w0
  ∧ required w = required w0
  ∧ same_control (editor w0) (editor w)
  ∧ match langChooser w0, langChooser w with
    | Some c0, Some c => same_control c0 c
    | None, None => True
    | _, _ => False
    end.

(** [minCount !== undefined && minCount > 0] *)
Definition is_required (p : ShaclPropertySpec) : Prop :=
  ∃ n, minCount p = Some n ∧ (0 < n)%N.

(** The term that [InputText] and [InputList] make of a widget value. *)
Definition term_of_value (p : ShaclPropertySpec) (v : string) : Term :=
  if wants_iri p then TermNamedNode (namedNode v)
  else TermLiteral (DataFactory.literal v (DataFactory.DataType (datatype p))).

(** The language tags that the chooser of a LangString editor offers when it
    is a drop-down. *)
Definition offered (p : ShaclPropertySpec) : list string :=
  match languageIn p with
  | Some langs => value <$> langs
  | None => []
  end.

(** The attributes that the constructor of [InputBase] writes. *)
Definition base_attributes : list string :=
  ["required"; "placeholder"; "value"; "data-path"].

(** The six constructors applied to a shape. *)
Definition constructed (p : ShaclPropertySpec) (entries : option (list InputListEntry))
    : list InputBase :=
  [InputDate.new p; InputText.new p; InputLangString.new p; InputNumber.new p;
   InputList.new p entries; InputBoolean.new p].

(** ** The Config class *)

(** [src/config.ts].  A Config is a JavaScript object whose own properties
    are its nine public string fields and its seven private fields, which
    hold references to objects (a theme, two stores, the lists, the groups,
    the plugins, the prefixes).  Objects live in a heap and are compared by
    address; every [new] and every object or array literal takes a fresh
    address. *)
Module ConfigClass.

(** A term in a quad of an [n3] Store: besides the terms that the editors
    write, a blank node or the default graph. *)
Inductive Node :=
| NodeTerm (t : Term)
| BlankNode (label : string)
| DefaultGraph.

#[global] Instance Node_eq_dec : EqDecision Node.
Proof. solve_decision. Defined.

(** [node.value] *)
Definition node_value (n : Node) : string :=
  match n with
  | NodeTerm t => value t
  | BlankNode label => label
  | DefaultGraph => ""
  end.

Record Quad := mkQuad {
  quad_subject : Node;
  quad_predicate : Node;
  quad_object : Node;
  quad_graph : Node
}.

(** A prefix IRI: the [n3] type [Prefixes] allows a string or a NamedNode. *)
Inductive PrefixValue :=
| PrefixString (s : string)
| PrefixNode (n : NamedNode).

(** What a heap address holds.  A theme and a plugin record are used by
    identity only; a store is seen through the quads it enumerates. *)
Inductive Cell :=
| Theme
| Plugins
| Graph (quads : list Quad)
| Lists (m : gmap string (list Term))
| Groups (items : list string)
| Prefixes (m : gmap string PrefixValue).

Record Heap := mkHeap {
  cells : gmap nat Cell;
  next : nat
}.

(** A new object: it takes the next address. *)
Definition alloc (c : Cell) (h : Heap) : nat * Heap :=
  (next h, mkHeap (<[next h := c]> (cells h)) (S (next h))).

(** The value of a field: [null], a string, or a reference to an object.
    [undefined] is the absence of a value. *)
Inductive Value :=
| Null
| Str (s : string)
| Ref (address : nat).

#[global] Instance Value_eq_dec : EqDecision Value.
Proof. solve_decision. Defined.

(** [if (v)] *)
Definition truthy (v : option Value) : bool :=
  match v with
  | Some (Str s) => JS.truthy s
  | Some (Ref _) => true
  | Some Null | None => false
  end.

(** An object: its own properties in the order of their creation. *)
Definition JSObject : Type := list (string * Value).

(** [o[key]] *)
Fixpoint get (o : JSObject) (key : string) : option Value :=
  match o with
  | [] => None
  | (k, v) :: o' => if String.eqb k key then Some v else get o' key
  end.

(** [o[key] = v]: an existing property keeps its place, a new one goes last. *)
Fixpoint set (key : string) (v : Value) (o : JSObject) : JSObject :=
  match o with
  | [] => [(key, v)]
  | (k, w) :: o' => if String.eqb k key then (k, v) :: o' else (k, w) :: set key v o'
  end.

(** [Object.keys(o)] *)
Definition keys (o : JSObject) : list string := o.*1.

(** [new Config()]: the field initialisers, in the order of the class body. *)
Definition new (h : Heap) : JSObject * Heap :=
  let '(theme, h) := alloc Theme h in
  let '(lists, h) := alloc (Lists ∅) h in
  let '(groups, h) := alloc (Groups []) h in
  let '(shapesGraph, h) := alloc (Graph []) h in
  let '(dataGraph, h) := alloc (Graph []) h in
  let '(plugins, h) := alloc Plugins h in
  let '(prefixes, h) := alloc (Prefixes ∅) h in
  ([("shapes", Null); ("shapesUrl", Null); ("shapeSubject", Null);
    ("values", Null); ("valuesUrl", Null); ("valueSubject", Null);
    ("language", Null); ("loadOwlImports", Str "true"); ("submitButton", Null);
    ("_theme", Ref theme); ("_lists", Ref lists); ("_groups", Ref groups);
    ("_shapesGraph", Ref shapesGraph); ("_dataGraph", Ref dataGraph);
    ("_plugins", Ref plugins); ("_prefixes", Ref prefixes)],
   h).

(** The own properties of a Config, in the order of the class body, and
    those that are private fields. *)
Definition fields : list string :=
  ["shapes"; "shapesUrl"; "shapeSubject"; "values"; "valuesUrl"; "valueSubject";
   "language"; "loadOwlImports"; "submitButton"; "_theme"; "_lists"; "_groups";
   "_shapesGraph"; "_dataGraph"; "_plugins"; "_prefixes"].

Definition private_fields : list string :=
  ["_theme"; "_lists"; "_groups"; "_shapesGraph"; "_dataGraph"; "_plugins"; "_prefixes"].

(** [this.equals(other)]; [other] is [None] when it is [undefined] or
    [null]. *)
Definition equals (this : JSObject) (other : option JSObject) : bool :=
  match other with
  | None => false
  | Some other =>
      forallb (λ key, bool_decide (get this key = get other key)) (keys this)
  end.

(** The getters. *)
Definition shapesGraph (this : JSObject) : option Value := get this "_shapesGraph".
Definition dataGraph (this : JSObject) : option Value := get this "_dataGraph".
Definition lists (this : JSObject) : option Value := get this "_lists".
Definition groups (this : JSObject) : option Value := get this "_groups".
Definition prefixes (this : JSObject) : option Value := get this "_prefixes".
Definition plugins (this : JSObject) : option Value := get this "_plugins".

(** The setters that store a reference. *)
Definition set_dataGraph (graph : Value) (this : JSObject) : JSObject :=
  set "_dataGraph" graph this.
Definition set_theme (theme : Value) (this : JSObject) : JSObject :=
  set "_theme" theme this.
Definition set_plugins (plugins : Value) (this : JSObject) : JSObject :=
  set "_plugins" plugins this.

(** How a method ends: it returns, or it raises and leaves the object and
    the heap as they were at that moment. *)
Inductive Outcome :=
| Returned (this : JSObject) (h : Heap)
| Raised (this : JSObject) (h : Heap).

Section Stores.
(** The constants [RDF_PREDICATE_TYPE] and [SHAPES_GRAPH] come from
    [src/constants.ts], which is not among the sources, and [extractLists] is
    a method of the [n3] Store, which gives the lists or raises ([None]).
    The three are parameters: what is proved holds whatever they are. *)
Variable RDF_PREDICATE_TYPE : Node.
Variable SHAPES_GRAPH : Node.
Variable extractLists : list Quad → option (gmap string (list Term)).

(** [graph.getQuads(null, predicate, object, graph)]: the quads of the
    store with these three terms, in the order the store enumerates them. *)
Definition getQuads (p o g : Node) (quads : list Quad) : list Quad :=
  filter (λ q, quad_predicate q = p ∧ quad_object q = o ∧ quad_graph q = g) quads.

(** [this._groups.push(x)] *)
Definition push_group (x : string) (this : JSObject) (h : Heap) : Heap :=
  match get this "_groups" with
  | Some (Ref a) =>
      match cells h !! a with
      | Some (Groups items) => mkHeap (<[a := Groups (items ++ [x])]> (cells h)) (next h)
      | _ => h
      end
  | _ => h
  end.

(** [this.shapesGraph = graph], for a reference [graph].  The field is
    assigned first; the call of [extractLists] raises when [graph] is no
    store or the method does. *)
Definition set_shapesGraph (graph : nat) (this : JSObject) (h : Heap) : Outcome :=
  let this := set "_shapesGraph" (Ref graph) this in
  match cells h !! graph with
  | Some (Graph quads) =>
      match extractLists quads with
      | Some extracted =>
          let '(lists, h) := alloc (Lists extracted) h in
          let this := set "_lists" (Ref lists) this in
          let '(groups, h) := alloc (Groups []) h in
          let this := set "_groups" (Ref groups) this in
          let h :=
            fold_left
              (λ h groupQuad, push_group (node_value (quad_subject groupQuad)) this h)
              (getQuads RDF_PREDICATE_TYPE
                 (NodeTerm (TermNamedNode (namedNode (PREFIX_SHACL ++ "PropertyGroup"))))
                 SHAPES_GRAPH quads)
              h in
          Returned this h
      | None => Raised this h
      end
  | _ => Raised this h
  end.
End Stores.

(** [this.registerPrefixes(prefixes)]: every key of [prefixes] is written
    into the object that [_prefixes] refers to.  Without a key nothing is
    done.  [None]: the first assignment raises, as [_prefixes] is [null] or a
    string (which [from] can put there); a reference to an object of another
    kind is not in the model and counts as that too. *)
Definition registerPrefixes (prefixes : gmap string PrefixValue) (this : JSObject)
    (h : Heap) : option Heap :=
  if decide (prefixes = ∅) then Some h
  else
    match get this "_prefixes" with
    | Some (Ref a) =>
        match cells h !! a with
        | Some (Prefixes own) =>
            Some (mkHeap
                    (<[a := Prefixes (map_fold (λ key v own, <[key := v]> own) own prefixes)]>
                       (cells h))
                    (next h))
        | _ => None
        end
    | _ => None
    end.

(** [Config.from(elem)]: the element is seen through its [dataset], and
    [navigator.language] is given. *)
Definition from (dataset : gmap string string) (navigator_language : string)
    (h : Heap) : JSObject * Heap :=
  let '(config, h) := new h in
  let config :=
    fold_left
      (λ config key,
         match dataset !! key with
         | Some v => set key (Str v) config
         | None => config
         end)
      (keys config) config in
  let config :=
    if negb (truthy (get config "language"))
    then set "language" (Str navigator_language) config
    else config in
  (config, h).

Definition is_upper (c : ascii) : bool :=
  let n := nat_of_ascii c in (Nat.leb 65 n && Nat.leb n 90)%bool.

Definition is_lower (c : ascii) : bool :=
  let n := nat_of_ascii c in (Nat.leb 97 n && Nat.leb n 122)%bool.

(** [key.replace(/[A-Z]/g, m => "-" + m.toLowerCase())] *)
Fixpoint kebab (key : string) : string :=
  match key with
  | EmptyString => EmptyString
  | String c key' =>
      if is_upper c then String "-" (String (JS.lower_ascii c) (kebab key'))
      else String c (kebab key')
  end.

(** [Config.keysAsDataAttributes] *)
Definition keysAsDataAttributes (h : Heap) : list string * Heap :=
  let '(config, h) := new h in
  (map (λ key, "data-" ++ kebab key)
       (filter (λ key, String.prefix "_" key = false) (keys config)),
   h).

(** The name that the [dataset] of an element gives to the attribute
    [data-name] (HTML): a hyphen followed by a lower-case letter becomes that
    letter in upper case. *)
Fixpoint dataset_name (name : string) : string :=
  match name with
  | EmptyString => EmptyString
  | String a rest =>
      match a, rest with
      | "-"%char, String c rest' =>
          if is_lower c then String (ascii_of_nat (nat_of_ascii c - 32)) (dataset_name rest')
          else String a (dataset_name rest)
      | _, _ => String a (dataset_name rest)
      end
  end.

End ConfigClass.

(** * Properties *)

(** ** Resolution *)

Lemma case_spec (s : option string) (l : string) :
  case s l = bool_decide (s = Some l).
Proof.
  unfold case. destruct s as [s|].
  - destruct (String.eqb_spec s l); case_bool_decide; congruence.
  - case_bool_decide; congruence.
Qed.

Lemma datatype_is_spec (p : ShaclPropertySpec) (i : string) :
  datatype_is p i = bool_decide (datatype p = Some (namedNode i)).
Proof.
  unfold datatype_is. destruct (datatype p) as [[d]|].
  - cbn [iri]. destruct (String.eqb_spec d i); case_bool_decide; congruence.
  - case_bool_decide; congruence.
Qed.

Lemma has_languageIn_spec (p : ShaclPropertySpec) :
  has_languageIn p = non_empty (languageIn p).
Proof. reflexivity. Qed.

(** The class that the rules after the list rule pick, whatever the console
    holds so far. *)
Lemma inputFactory_rest (p : ShaclPropertySpec) :
  non_empty (materialized_list p) = false →
  kind_of (class_of (fst (inputFactory p))) = resolve_without_list p.
Proof.
  intros Hlist.
  assert (Hrest : ∀ console : list ConsoleMessage,
    kind_of (class_of (fst
      (if (datatype_is p (PREFIX_RDF ++ "langString") || has_languageIn p)%bool
       then (InputLangString.new p, console)
       else
         let s := stripped_datatype p in
         if case s "string" then (InputText.new p, console)
         else if (case s "integer" || case s "float" || case s "double"
                  || case s "decimal")%bool
         then (InputNumber.new p, console)
         else if (case s "date" || case s "dateTime")%bool then (InputDate.new p, console)
         else if case s "boolean" then (InputBoolean.new p, console)
         else (InputText.new p, console)))) = resolve_without_list p).
  { intros console. unfold resolve_without_list. cbv zeta.
    rewrite !case_spec, datatype_is_spec, has_languageIn_spec.
    rewrite !bool_decide_or.
    change (namedNode (PREFIX_RDF ++ "langString")) with DataFactory.rdf_langString.
    destruct (bool_decide (datatype p = Some DataFactory.rdf_langString));
      destruct (non_empty (languageIn p)); simpl; try reflexivity.
    repeat (match goal with
            | |- context [bool_decide ?P] => destruct (bool_decide P); simpl
            end); reflexivity. }
  unfold inputFactory. unfold materialized_list in Hlist.
  destruct (shaclIn p) as [i|]; [|apply Hrest].
  destruct (JS.truthy i); [|apply Hrest].
  destruct (lists (config p) !! i) as [[|t l]|]; try apply Hrest.
  discriminate Hlist.
Qed.

Lemma inputFactory_kind (p : ShaclPropertySpec) :
  kind_of (class_of (fst (inputFactory p))) = resolve p.
Proof.
  unfold resolve. destruct (non_empty (materialized_list p)) eqn:Hlist.
  - unfold inputFactory. unfold materialized_list in Hlist.
    destruct (shaclIn p) as [i|]; [|discriminate].
    destruct (JS.truthy i); [|discriminate].
    destruct (lists (config p) !! i) as [[|t l]|]; try discriminate.
    reflexivity.
  - by apply inputFactory_rest.
Qed.


(** An empty string as [shaclIn] is not a list id: [if (property.shaclIn)]
    skips it, without a diagnostic, whatever [lists] holds. *)
Example inputFactory_empty_shaclIn :
  let p := Sample.with_shaclIn "" {[ "" := [Sample.plain "a"] ]} Sample.bare in
  class_of (fst (inputFactory p)) = InputText ∧ snd (inputFactory p) = [].
Proof. by vm_compute. Qed.




(** ** Invariance of the editor under value assignments *)

Lemma same_control_refl (e : Element) : same_control e e.
Proof. by repeat split. Qed.

Lemma state_of_refl (w : InputBase) : state_of w w.
Proof.
  repeat split; try reflexivity. destruct (langChooser w); [|done].
  apply same_control_refl.
Qed.


Lemma same_control_set_checked (e0 e : Element) (b : bool) :
  same_control e0 e → same_control e0 (DOM.set_checked b e).
Proof. intros (Ht & Ha & Ho). by repeat split. Qed.

Lemma same_control_user_select (e0 e : Element) (i : nat) :
  same_control e0 e → same_control e0 (DOM.user_select i e).
Proof.
  intros (Ht & Ha & Ho). unfold DOM.user_select.
  case_bool_decide; by repeat split.
Qed.

Lemma state_of_with_editor (w0 w : InputBase) (e : Element) :
  state_of w0 w → same_control (editor w0) e → state_of w0 (with_editor e w).
Proof. intros (Hc & Hp & Hr & He & Hl) He'. by split_and!. Qed.



Lemma Base_new_required (cls : EditorClass) (mk : ShaclPropertySpec → Element)
    (p : ShaclPropertySpec) :
  required (Base.new cls mk p) = true ↔ is_required p.
Proof.
  unfold is_required. simpl. destruct (minCount p) as [n|].
  - rewrite N.ltb_lt. split; [eauto | by intros (? & [= <-] & ?)].
  - split; [done | by intros (? & ? & ?)].
Qed.

(** ** Boolean editor *)

(** C4.  The term a Boolean editor writes, in every state of the editor: a
    checked toggle gives the literal [true] with the datatype of the property,
    required or not; an unchecked toggle gives the literal [false] when the
    property is required ([minCount > 0]) and nothing when it is not. *)
Theorem C4_boolean_toTerm `{RT : Runtime} (p : ShaclPropertySpec) (w : InputBase) :
  state_of (InputBoolean.new p) w →
  let dt := DataFactory.DataType (datatype p) in
  (checked (editor w) = true →
     toRDFObject w = Some (TermLiteral (DataFactory.literal "true" dt)))
  ∧ (checked (editor w) = false → is_required p →
     toRDFObject w = Some (TermLiteral (DataFactory.literal "false" dt)))
  ∧ (checked (editor w) = false → ¬ is_required p → toRDFObject w = None).
Proof.
  intros (Hc & Hp & Hr & _) dt.
  assert (Hreq : required w = true ↔ is_required p).
  { rewrite Hr. apply (Base_new_required InputBoolean InputBoolean.createEditor). }
  unfold toRDFObject. rewrite Hc. simpl class_of. cbv iota.
  unfold InputBoolean.toRDFObject. rewrite Hp. simpl property. fold dt.
  repeat split.
  - by intros ->.
  - intros -> Hp'. apply Hreq in Hp'. by rewrite Hp'.
  - intros -> Hn. destruct (required w); [|done]. exfalso. by apply Hn, Hreq.
Qed.

Lemma C4_boolean_toTerm_witness :
  let p := Sample.with_minCount 1 (Sample.with_datatype (Sample.xsd "boolean") Sample.bare) in
  @toRDFObject Engine.runtime (InputBoolean.new p)
  = Some (TermLiteral (mkLiteral "false" "" (Sample.xsd "boolean")))
  ∧ @toRDFObject Engine.runtime
      (with_editor (DOM.set_checked true (editor (InputBoolean.new Sample.bare)))
         (InputBoolean.new Sample.bare))
    = Some (Sample.plain "true")
  ∧ @toRDFObject Engine.runtime (InputBoolean.new Sample.bare) = None.
Proof.
  intros p. split; [|split].
  - apply (C4_boolean_toTerm p (InputBoolean.new p) (state_of_refl _)).
    + reflexivity.
    + exists 1%N. split; [reflexivity | lia].
  - apply (C4_boolean_toTerm Sample.bare).
    + apply state_of_with_editor; [apply state_of_refl|].
      apply same_control_set_checked, same_control_refl.
    + reflexivity.
  - apply (C4_boolean_toTerm Sample.bare (InputBoolean.new Sample.bare) (state_of_refl _)).
    + reflexivity.
    + intros (n & Hn & _). discriminate Hn.
Defined.

(** C10.  [setValue] of the Boolean editor: with a Literal the toggle becomes
    checked exactly when the lexical value is the string [true] (so [1] and
    [TRUE] uncheck it); with a NamedNode the editor is left as it was. *)
Theorem C10_boolean_setValue (w : InputBase) :
  (∀ l : Literal,
     checked (editor (InputBoolean.setValue (TermLiteral l) w)) = true
     ↔ lexical l = "true")
  ∧ (∀ n : NamedNode, InputBoolean.setValue (TermNamedNode n) w = w)
  ∧ checked (editor (InputBoolean.setValue (Sample.plain "1") w)) = false
  ∧ checked (editor (InputBoolean.setValue (Sample.plain "TRUE") w)) = false.
Proof.
  repeat split; try done.
  - simpl. by intros ?%String.eqb_eq.
  - simpl. by intros ->.
Qed.

(** ** What the base constructor leaves alone *)

Lemma Base_new_tagName (cls : EditorClass) (mk : ShaclPropertySpec → Element)
    (p : ShaclPropertySpec) :
  tagName (editor (Base.new cls mk p)) = tagName (mk p).
Proof.
  unfold Base.new. cbv zeta. simpl.
  repeat (match goal with
          | |- context [match ?x with _ => _ end] => destruct x
          end; simpl); reflexivity.
Qed.

Lemma Base_new_options (cls : EditorClass) (mk : ShaclPropertySpec → Element)
    (p : ShaclPropertySpec) :
  options (editor (Base.new cls mk p)) = options (mk p)
  ∧ selectedIndex (editor (Base.new cls mk p)) = selectedIndex (mk p)
  ∧ dirty_value (editor (Base.new cls mk p)) = dirty_value (mk p)
  ∧ checked (editor (Base.new cls mk p)) = checked (mk p).
Proof.
  unfold Base.new. cbv zeta. simpl.
  repeat (match goal with
          | |- context [match ?x with _ => _ end] => destruct x
          end; simpl); done.
Qed.


(** ** Values of text controls *)


(** A text control gives back the value assigned to it. *)
Lemma get_set_value (v : string) (e : Element) :
  tagName e ≠ SELECT → DOM.get_value (DOM.set_value v e) = v.
Proof.
  intros Htag. unfold DOM.get_value, DOM.set_value.
  destruct (tagName e) eqn:Ht; simpl; rewrite ?Ht; done.
Qed.

Lemma truthy_spec (s : string) : JS.truthy s = true ↔ s ≠ "".
Proof.
  unfold JS.truthy. destruct (String.eqb_spec s ""); simpl; split; congruence.
Qed.

(** ** Date editor *)






(** ** Assignments to IDL properties *)

Lemma set_property_keeps (k v : string) (e : Element) :
  tagName (DOM.set_property k v e) = tagName e
  ∧ options (DOM.set_property k v e) = options e
  ∧ selectedIndex (DOM.set_property k v e) = selectedIndex e.
Proof. unfold DOM.set_property. by destruct (DOM.reflected _ _). Qed.

Lemma set_property_attribute (k v : string) (x : Element) (k' : string) :
  attributes (DOM.set_property k v x) !! k'
  = match DOM.reflected (tagName x) k with
    | Some a => if decide (a = k') then Some v else attributes x !! k'
    | None => attributes x !! k'
    end.
Proof.
  unfold DOM.set_property. destruct (DOM.reflected (tagName x) k); simpl; [|done].
  apply lookup_insert.
Qed.

(** ** Number editor: bounds *)

(** C3, on the scenario of the specification: a shape with datatype
    [xsd:integer], [minInclusive] 0 and [maxExclusive] 10.  The editor gets
    [max] 9 and keeps the default step, but no [min]: the bound 0 is a falsy
    number, and both tests on the way to [input.min] skip it. *)
Theorem C3_zero_bound_is_dropped :
  let p := Sample.with_range 0 10 (Sample.with_datatype (Sample.xsd "integer") Sample.bare) in
  class_of (fst (inputFactory p)) = InputNumber
  ∧ InputNumber.bound (minInclusive p) (minExclusive p) (λ b, b + 1) = None
  ∧ DOM.getAttribute "min" (editor (fst (inputFactory p))) = None
  ∧ DOM.getAttribute "max" (editor (fst (inputFactory p))) = Some "9"
  ∧ DOM.getAttribute "step" (editor (fst (inputFactory p))) = None.
Proof. by vm_compute. Qed.

(** With bounds other than zero the same editor has both attributes. *)
Example InputNumber_bounds_1_10 :
  let p := Sample.with_range 1 10 (Sample.with_datatype (Sample.xsd "integer") Sample.bare) in
  DOM.getAttribute "min" (editor (InputNumber.new p)) = Some "1"
  ∧ DOM.getAttribute "max" (editor (InputNumber.new p)) = Some "9".
Proof. by vm_compute. Qed.


(** ** Text editor: constraints *)

(** C8, on two shapes.  A [maxLength] of 0 is a falsy number and is not
    applied: the input has no [maxlength] attribute.  A [pattern] on a
    multi-line editor is assigned to a [textarea], which has no such
    attribute: it ends as an expando property and constrains nothing. *)
Theorem C8_constraints_dropped :
  let p := Sample.with_maxLength 0 Sample.bare in
  let q := Sample.with_singleLine false (Sample.with_pattern "[a-z]+" Sample.bare) in
  (tagName (editor (InputText.new p)) = INPUT
   ∧ DOM.getAttribute "maxlength" (editor (InputText.new p)) = None)
  ∧ (tagName (editor (InputText.new q)) = TEXTAREA
     ∧ DOM.getAttribute "pattern" (editor (InputText.new q)) = None
     ∧ expando (editor (InputText.new q)) !! "pattern" = Some "[a-z]+").
Proof. by vm_compute. Qed.

(** A limit other than zero and a pattern on a single-line editor are applied. *)
Example InputText_constraints_applied :
  let p := Sample.with_maxLength 7 (Sample.with_pattern "[a-z]+" Sample.bare) in
  DOM.getAttribute "maxlength" (editor (InputText.new p)) = Some "7"
  ∧ DOM.getAttribute "pattern" (editor (InputText.new p)) = Some "[a-z]+".
Proof. by vm_compute. Qed.


(** The editor is a [textarea] exactly when [singleLine] is [false]. *)
Lemma InputText_multi_line (p : ShaclPropertySpec) :
  tagName (editor (InputText.new p)) = TEXTAREA ↔ singleLine p = Some false.
Proof.
  assert (Htag : ∀ (k v : string) e, tagName (DOM.set_property k v e) = tagName e).
  { intros k v e. unfold DOM.set_property. by destruct (DOM.reflected _ _). }
  assert (Hnew : tagName (editor (InputText.new p)) = tagName (InputText.createEditor p)).
  { unfold InputText.new, InputText.construct. cbv zeta. cbn [editor with_editor].
    destruct (minLength p) as [n|]; [destruct (JS.truthyN n)|];
      (destruct (maxLength p) as [m|]; [destruct (JS.truthyN m)|]);
      (destruct (pattern p) as [r|]; [destruct (JS.truthy r)|]);
      rewrite ?Htag; apply Base_new_tagName. }
  rewrite Hnew. unfold InputText.createEditor.
  destruct (singleLine p) as [[]|]; simpl; split; congruence.
Qed.

(** ** Text and List editors: the term written *)

Lemma text_list_toRDFObject `{RT : Runtime} (w : InputBase) :
  class_of w = InputText ∨ class_of w = InputList →
  toRDFObject w
  = if JS.truthy (DOM.get_value (editor w))
    then Some (term_of_value (property w) (DOM.get_value (editor w)))
    else None.
Proof.
  unfold toRDFObject, term_of_value.
  intros [-> | ->]; [unfold InputText.toRDFObject | unfold InputList.toRDFObject];
    destruct (JS.truthy (DOM.get_value (editor w))), (wants_iri (property w));
    reflexivity.
Qed.

Lemma add_options_fold {A : Type} (mk : A → HTMLOptionElement) (l : list A)
    (e : Element) :
  options (fold_left (λ select a, DOM.add_option (mk a) select) l e)
  = (options e ++ map mk l)%list
  ∧ tagName (fold_left (λ select a, DOM.add_option (mk a) select) l e) = tagName e.
Proof.
  revert e. induction l as [|a l IH]; intros e; simpl.
  - by rewrite app_nil_r.
  - destruct (IH (DOM.add_option (mk a) e)) as [-> ->].
    simpl. by rewrite <- app_assoc.
Qed.

(** The choices of a List editor: the empty one first, then one per entry,
    in order. *)
Lemma InputList_choices (p : ShaclPropertySpec) (entries : list InputListEntry)
    (w : InputBase) :
  state_of (InputList.new p (Some entries)) w →
  class_of w = InputList
  ∧ property w = p
  ∧ tagName (editor w) = SELECT
  ∧ options (editor w) = mkOption (Some "") "" :: map InputList.entry_option entries.
Proof.
  intros (Hc & Hp & _ & (Ht & _ & Ho) & _).
  unfold InputList.new, InputList.setListEntries in Ht, Ho.
  cbv zeta in Ht, Ho. cbn [editor with_editor] in Ht, Ho.
  destruct (add_options_fold InputList.entry_option entries
              (DOM.add_option (mkOption (Some "") "")
                 (editor (Base.new InputList InputList.createEditor p)))) as [Hopts Htag].
  rewrite Hopts in Ho. rewrite Htag in Ht.
  destruct (Base_new_options InputList InputList.createEditor p) as (Hbo & _).
  split_and!; try done.
  - rewrite Ht. cbn [tagName DOM.add_option DOM.with_selection].
    apply (Base_new_tagName InputList InputList.createEditor).
  - rewrite Ho. cbn [options DOM.add_option DOM.with_selection]. by rewrite Hbo.
Qed.

(** The value of a drop-down after the user picked a choice. *)
Lemma get_value_user_select (e : Element) (i : nat) (o : HTMLOptionElement) :
  tagName e = SELECT → options e !! i = Some o →
  DOM.get_value (DOM.user_select i e) = option_value o.
Proof.
  intros Htag Ho. unfold DOM.user_select.
  rewrite bool_decide_eq_true_2 by (by apply lookup_lt_Some in Ho).
  unfold DOM.get_value. simpl. by rewrite Htag, Ho.
Qed.

(** C6, as the code has it.  A Text or List editor writes nothing exactly
    when the value of its widget is the empty string, and otherwise
    NamedNode(value) when the shape has a [class] or the node kind [sh:IRI],
    else Literal(value, datatype).  In a List editor the value of the widget
    is empty when the injected first choice is selected, and is the lexical
    value of entry [i] when that entry is selected: the editor then writes
    the term made of that lexical value, and nothing when it is the empty
    string. *)
Theorem C6_text_list_toTerm `{RT : Runtime} :
  (∀ w : InputBase,
     class_of w = InputText ∨ class_of w = InputList →
     (toRDFObject w = None ↔ DOM.get_value (editor w) = "")
     ∧ (DOM.get_value (editor w) ≠ "" →
        toRDFObject w = Some (term_of_value (property w) (DOM.get_value (editor w)))))
  ∧ (∀ (p : ShaclPropertySpec) (entries : list InputListEntry) (w : InputBase),
       state_of (InputList.new p (Some entries)) w →
       toRDFObject (with_editor (DOM.user_select 0 (editor w)) w) = None
       ∧ ∀ (i : nat) (item : InputListEntry),
           entries !! i = Some item →
           let w' := with_editor (DOM.user_select (S i) (editor w)) w in
           DOM.get_value (editor w') = value (entry_value item)
           ∧ toRDFObject w'
             = if JS.truthy (value (entry_value item))
               then Some (term_of_value p (value (entry_value item)))
               else None).
Proof.
  split.
  - intros w Hcls. rewrite (text_list_toRDFObject w Hcls).
    destruct (JS.truthy (DOM.get_value (editor w))) eqn:Hv.
    + apply truthy_spec in Hv. by split; [split|].
    + assert (DOM.get_value (editor w) = "").
      { destruct (String.eqb_spec (DOM.get_value (editor w)) "") as [|Hne]; [done|].
        apply truthy_spec in Hne. congruence. }
      by split; [split|].
  - intros p entries w Hst.
    destruct (InputList_choices p entries w Hst) as (Hc & Hp & Htag & Ho).
    split.
    + rewrite text_list_toRDFObject by (by right). cbn [editor with_editor].
      rewrite (get_value_user_select _ 0 (mkOption (Some "") "")); [done|done|].
      by rewrite Ho.
    + intros i item Hitem w'. subst w'.
      assert (Hval : DOM.get_value (DOM.user_select (S i) (editor w))
                     = value (entry_value item)).
      { rewrite (get_value_user_select _ (S i) (InputList.entry_option item)); [done|done|].
        rewrite Ho. simpl. by rewrite list_lookup_fmap, Hitem. }
      split; [exact Hval|].
      rewrite text_list_toRDFObject by (by right). cbn [editor with_editor property].
      by rewrite Hval, Hp.
Qed.

(** The scenario of the specification: a list of two colours with labels
    gives three choices, the empty one first; selecting Blue writes the IRI
    when the shape has a [class], and a Literal of the IRI string when not. *)
Example colorList_scenario :
  let red := TermNamedNode (namedNode "http://example.org/Red") in
  let blue := TermNamedNode (namedNode "http://example.org/Blue") in
  let labels :=
    mkStore (λ t _, if decide (t = red) then Some "Red"
                    else if decide (t = blue) then Some "Blue" else None) in
  let p :=
    mkSpec "colour" "http://example.org/colour" None None None None None None
           None None None None None None None None None (Some "colorList") None
           (mkConfig {[ "colorList" := [red; blue] ]} labels (Some "en")) in
  let w := fst (inputFactory p) in
  let w' := fst (inputFactory (Sample.with_class (namedNode "http://example.org/Colour") p)) in
  class_of w = InputList
  ∧ option_text <$> options (editor w) = [""; "Red"; "Blue"]
  ∧ @toRDFObject Engine.runtime (with_editor (DOM.user_select 2 (editor w)) w)
    = Some (Sample.plain "http://example.org/Blue")
  ∧ @toRDFObject Engine.runtime (with_editor (DOM.user_select 2 (editor w')) w')
    = Some blue.
Proof. by vm_compute. Qed.

Lemma C6_text_list_toTerm_witness :
  let red := TermNamedNode (namedNode "http://example.org/Red") in
  let blue := TermNamedNode (namedNode "http://example.org/Blue") in
  let p := Sample.with_class (namedNode "http://example.org/Color") Sample.bare in
  let w := InputList.new p (Some [mkEntry red (Some "Red"); mkEntry blue (Some "Blue")]) in
  @toRDFObject Engine.runtime (with_editor (DOM.user_select 2 (editor w)) w) = Some blue
  ∧ @toRDFObject Engine.runtime (with_editor (DOM.user_select 0 (editor w)) w) = None.
Proof.
  intros red blue p w.
  destruct (@C6_text_list_toTerm Engine.runtime) as [_ Hlist].
  destruct (Hlist p [mkEntry red (Some "Red"); mkEntry blue (Some "Blue")] w
              (state_of_refl _)) as [Hempty Hentry].
  split; [|exact Hempty].
  destruct (Hentry 1%nat (mkEntry blue (Some "Blue"))) as [_ Hterm].
  - reflexivity.
  - exact Hterm.
Defined.

(** C6, as stated, fails on a List editor in two ways.  With an entry whose
    lexical value is the empty string, selecting that entry (not the injected
    first choice) writes nothing.  With an IRI entry and a shape without
    [class] or IRI node kind, selecting the entry writes a Literal, which is
    not the entry's value. *)
Lemma C6_counterexample :
  let red := TermNamedNode (namedNode "http://example.org/Red") in
  let w := InputList.new Sample.bare
             (Some [mkEntry (Sample.plain "") None; mkEntry red (Some "Red")]) in
  let first := with_editor (DOM.user_select 1 (editor w)) w in
  let second := with_editor (DOM.user_select 2 (editor w)) w in
  (selectedIndex (editor first) = Some 1%nat
   ∧ @toRDFObject Engine.runtime first = None)
  ∧ (selectedIndex (editor second) = Some 2%nat
     ∧ @toRDFObject Engine.runtime second = Some (Sample.plain "http://example.org/Red")
     ∧ @toRDFObject Engine.runtime second ≠ Some red).
Proof. by vm_compute. Qed.

(** ** Number editor: the term written *)

(** A Number editor that the factory builds has a datatype. *)
Lemma inputFactory_number_datatype (p : ShaclPropertySpec) :
  class_of (fst (inputFactory p)) = InputNumber →
  ∃ d : NamedNode, datatype p = Some d ∧ iri d ≠ "".
Proof.
  intros Hcls. pose proof (inputFactory_kind p) as Hkind.
  rewrite Hcls in Hkind. simpl in Hkind. symmetry in Hkind.
  unfold resolve in Hkind. destruct (non_empty (materialized_list p)); [done|].
  unfold resolve_without_list in Hkind. cbv zeta in Hkind.
  repeat case_bool_decide; try discriminate.
  assert (Hname : ∃ name, stripped_datatype p = Some name ∧ name ≠ "").
  { match goal with
    | H : _ ∨ _ |- _ => destruct H as [H|[H|[H|H]]]; eexists; (split; [exact H|done])
    end. }
  destruct Hname as (name & Hs & Hne). unfold stripped_datatype in Hs.
  destruct (datatype p) as [d|]; [|done]. exists d. split; [done|].
  intros Hd. injection Hs as Hs. rewrite Hd in Hs. by vm_compute in Hs.
Qed.

(** C9.  The Number editor with a non-empty widget value [v] always writes a
    term, without raising: when the property has a datatype (as every Number
    editor made by the factory has), the Literal whose lexical form is the
    string rendering of [parseFloat(v)], typed with that datatype.  A [v]
    that [parseFloat] cannot read gives the literal [NaN]. *)
Theorem C9_number_toTerm `{RT : Runtime} (w : InputBase) (v : string) :
  class_of w = InputNumber →
  DOM.get_value (editor w) = v →
  v ≠ "" →
  (∃ l : Literal, toRDFObject w = Some (TermLiteral l))
  ∧ (∀ d : NamedNode,
       datatype (property w) = Some d → iri d ≠ "" →
       toRDFObject w
       = Some (TermLiteral (mkLiteral (Number_toString (parseFloat v)) "" d))
       ∧ (parseFloat v = NaN →
          toRDFObject w = Some (TermLiteral (mkLiteral "NaN" "" d)))).
Proof.
  intros Hcls Hv Hne. apply truthy_spec in Hne.
  assert (Hterm : toRDFObject w
                  = Some (TermLiteral
                            (literal_of_number (parseFloat v) (datatype (property w))))).
  { unfold toRDFObject. rewrite Hcls. unfold InputNumber.toRDFObject.
    by rewrite Hv, Hne. }
  split; [eauto|].
  intros [d] Hd Hiri. simpl in Hiri.
  assert (Hlit : ∀ n, literal_of_number n (Some (namedNode d))
                      = mkLiteral (Number_toString n) "" (namedNode d)).
  { intros n. unfold literal_of_number. simpl.
    destruct (String.eqb_spec d ""); [contradiction | reflexivity]. }
  rewrite Hterm, Hd, Hlit. split; [reflexivity|]. by intros ->.
Qed.

Lemma C9_number_toTerm_witness :
  let p := Sample.with_datatype (Sample.xsd "decimal") Sample.bare in
  let typed (s : string) :=
    with_editor (DOM.set_value s (editor (InputNumber.new p))) (InputNumber.new p) in
  @toRDFObject Engine.runtime (typed "abc")
  = Some (TermLiteral (mkLiteral "NaN" "" (Sample.xsd "decimal")))
  ∧ @toRDFObject Engine.runtime (typed "042")
    = Some (TermLiteral (mkLiteral "42" "" (Sample.xsd "decimal"))).
Proof.
  intros p typed. split.
  - destruct (@C9_number_toTerm Engine.runtime (typed "abc") "abc") as [_ Hd].
    + reflexivity.
    + reflexivity.
    + discriminate.
    + destruct (Hd (Sample.xsd "decimal")) as [_ Hnan].
      * reflexivity.
      * discriminate.
      * apply Hnan. reflexivity.
  - destruct (@C9_number_toTerm Engine.runtime (typed "042") "042") as [_ Hd].
    + reflexivity.
    + reflexivity.
    + discriminate.
    + destruct (Hd (Sample.xsd "decimal")) as [Hterm _].
      * reflexivity.
      * discriminate.
      * exact Hterm.
Defined.

(** ** Round trips *)

Lemma InputText_construct_shape (cls : EditorClass) (p : ShaclPropertySpec) :
  class_of (InputText.construct cls p) = cls
  ∧ property (InputText.construct cls p) = p
  ∧ tagName (editor (InputText.construct cls p)) ≠ SELECT.
Proof.
  split_and!; try reflexivity.
  assert (Htag : ∀ k v e, tagName (DOM.set_property k v e) = tagName e)
    by (intros; apply set_property_keeps).
  unfold InputText.construct. cbv zeta. cbn [editor with_editor].
  destruct (minLength p) as [n|]; [destruct (JS.truthyN n)|];
    (destruct (maxLength p) as [m|]; [destruct (JS.truthyN m)|]);
    (destruct (pattern p) as [r|]; [destruct (JS.truthy r)|]);
    rewrite ?Htag, Base_new_tagName; unfold InputText.createEditor;
    by destruct (singleLine p) as [[]|].
Qed.






(** Assigning the value of one of its options to a drop-down selects an
    option with that value. *)
Lemma select_set_offered (e : Element) (v : string) (i : nat) (o : HTMLOptionElement) :
  tagName e = SELECT → options e !! i = Some o → option_value o = v →
  DOM.get_value (DOM.set_value v e) = v.
Proof.
  intros Htag Ho Hv. unfold DOM.set_value. rewrite Htag.
  destruct (list_find (λ o, option_value o = v) (options e)) as [[j o']|] eqn:Hfind.
  - apply list_find_Some in Hfind as (Hj & Hv' & _).
    unfold DOM.get_value. simpl. by rewrite Htag, Hj.
  - apply list_find_None in Hfind.
    apply list_elem_of_lookup_2 in Ho.
    rewrite Forall_forall in Hfind. by destruct (Hfind o Ho).
Qed.






Lemma createLangChooser_shape (p : ShaclPropertySpec) :
  if has_languageIn p
  then tagName (InputLangString.createLangChooser p) = SELECT
       ∧ option_value <$> options (InputLangString.createLangChooser p) = offered p
  else tagName (InputLangString.createLangChooser p) = INPUT.
Proof.
  assert (Hkeep : ∀ e,
    let c := DOM.classList_add ["lang-chooser"]
               (DOM.set_property "placeholder" "lang?"
                  (DOM.set_property "title" "Language of the text" e)) in
    tagName c = tagName e ∧ options c = options e).
  { intros e c. subst c. cbn [DOM.classList_add DOM.with_classList tagName options].
    destruct (set_property_keeps "placeholder" "lang?"
                (DOM.set_property "title" "Language of the text" e)) as (-> & -> & _).
    destruct (set_property_keeps "title" "Language of the text" e) as (-> & -> & _).
    done. }
  unfold InputLangString.createLangChooser, has_languageIn, offered. cbv zeta.
  destruct (languageIn p) as [[|lang langs]|].
  - destruct (Hkeep (DOM.set_property "maxLength" "5" (DOM.createElement INPUT)))
      as [-> _]. reflexivity.
  - match goal with
    | |- context [fold_left ?f ?l ?e] =>
        destruct (Hkeep (fold_left f l e)) as [-> ->];
        destruct (add_options_fold (λ lang, mkOption None (value lang)) l e) as [-> ->]
    end.
    split; [reflexivity|]. simpl. f_equal. rewrite <- list_fmap_compose.
    by apply list_fmap_ext.
  - destruct (Hkeep (DOM.set_property "maxLength" "5" (DOM.createElement INPUT)))
      as [-> _]. reflexivity.
Qed.




(** The term a LangString editor writes, from its two widget values. *)
Lemma langString_toRDFObject `{RT : Runtime} (w : InputBase) :
  class_of w = InputLangString →
  toRDFObject w
  = if JS.truthy (DOM.get_value (editor w))
    then Some (TermLiteral
                 (DataFactory.literal (DOM.get_value (editor w))
                    (if JS.truthy (InputLangString.chooser_value w)
                     then DataFactory.Language (InputLangString.chooser_value w)
                     else DataFactory.DataType (datatype (property w)))))
    else None.
Proof. unfold toRDFObject. by intros ->. Qed.









(** * Further properties of the editors *)

(** ** Attributes written by the constructors *)

Lemma setAttribute_lookup (k v : string) (e : Element) (k' : string) :
  attributes (DOM.setAttribute k v e) !! k'
  = if decide (k = k') then Some v else attributes e !! k'.
Proof. apply lookup_insert. Qed.

Lemma classList_add_attributes (cs : list string) (e : Element) :
  attributes (DOM.classList_add cs e) = attributes e.
Proof. reflexivity. Qed.

Ltac attribute_lookups :=
  unfold DOM.set_dataset_path;
  rewrite ?setAttribute_lookup, ?classList_add_attributes;
  repeat (rewrite ?setAttribute_lookup, ?classList_add_attributes; case_decide);
  try done.

Lemma Base_new_written (cls : EditorClass) (mk : ShaclPropertySpec → Element)
    (p : ShaclPropertySpec) :
  attributes (editor (Base.new cls mk p)) !! "required"
  = (if required (Base.new cls mk p) then Some "true" else attributes (mk p) !! "required")
  ∧ attributes (editor (Base.new cls mk p)) !! "placeholder"
    = match description p, pattern p with
      | Some d, _ => if JS.truthy (lexical d) then Some (lexical d)
                     else attributes (mk p) !! "placeholder"
      | None, Some s => if JS.truthy s then Some s else attributes (mk p) !! "placeholder"
      | None, None => attributes (mk p) !! "placeholder"
      end
  ∧ attributes (editor (Base.new cls mk p)) !! "value"
    = Some match defaultValue p with
           | Some t => value t
           | None => ""
           end.
Proof.
  assert (Hdefault : (match defaultValue p with
                      | Some t => if JS.truthy (value t) then value t else ""
                      | None => ""
                      end) = match defaultValue p with
                             | Some t => value t
                             | None => ""
                             end).
  { destruct (defaultValue p) as [t|]; [|done].
    destruct (JS.truthy (value t)) eqn:Ht; [done|].
    destruct (String.eqb_spec (value t) "") as [->|Hne]; [done|].
    apply truthy_spec in Hne. congruence. }
  unfold Base.new. cbv zeta. cbn [editor required]. rewrite Hdefault.
  destruct (match minCount p with Some n => (0 <? n)%N | None => false end);
    (destruct (description p) as [d|];
     [destruct (JS.truthy (lexical d)) eqn:Hd
     |destruct (pattern p) as [s|]; [destruct (JS.truthy s) eqn:Hs|]]);
    rewrite ?Hd, ?Hs; split_and!; attribute_lookups.
Qed.

(** The subclass constructors assign IDL properties that reflect other
    attributes than those of the base constructor. *)
Lemma set_property_base (k v : string) (x : Element) (k' : string) :
  k' ∈ base_attributes →
  k ∈ ["minLength"; "maxLength"; "pattern"; "min"; "max"; "step"; "type"; "rows"] →
  attributes (DOM.set_property k v x) !! k' = attributes x !! k'.
Proof.
  intros Hk' Hk. rewrite set_property_attribute.
  apply list_elem_of_In in Hk', Hk. simpl in Hk', Hk.
  destruct (tagName x);
    destruct Hk as [<-|[<-|[<-|[<-|[<-|[<-|[<-|[<-|[]]]]]]]]];
    destruct Hk' as [<-|[<-|[<-|[<-|[]]]]]; reflexivity.
Qed.

Lemma add_options_attributes {A : Type} (mk : A → HTMLOptionElement) (l : list A)
    (e : Element) :
  attributes (fold_left (λ select a, DOM.add_option (mk a) select) l e) = attributes e
  ∧ dirty_value (fold_left (λ select a, DOM.add_option (mk a) select) l e)
    = dirty_value e.
Proof.
  revert e. induction l as [|a l IH]; intros e; simpl; [done|].
  by destruct (IH (DOM.add_option (mk a) e)) as [-> ->].
Qed.

(** For the attributes that the base constructor writes, the editor of every
    class has what the base constructor left, except that the Boolean editor
    has no [required]. *)
Lemma constructed_base_attribute (p : ShaclPropertySpec)
    (entries : option (list InputListEntry)) (k : string) :
  k ∈ base_attributes →
  attributes (editor (InputDate.new p)) !! k
  = attributes (editor (Base.new InputDate InputDate.createEditor p)) !! k
  ∧ attributes (editor (InputText.new p)) !! k
    = attributes (editor (Base.new InputText InputText.createEditor p)) !! k
  ∧ attributes (editor (InputLangString.new p)) !! k
    = attributes (editor (Base.new InputText InputText.createEditor p)) !! k
  ∧ attributes (editor (InputNumber.new p)) !! k
    = attributes (editor (Base.new InputNumber InputNumber.createEditor p)) !! k
  ∧ attributes (editor (InputList.new p entries)) !! k
    = attributes (editor (Base.new InputList InputList.createEditor p)) !! k
  ∧ attributes (editor (InputBoolean.new p)) !! k
    = if decide (k = "required") then None
      else attributes (editor (Base.new InputBoolean InputBoolean.createEditor p)) !! k.
Proof.
  intros Hk.
  assert (Htext : ∀ cls, attributes (editor (InputText.construct cls p)) !! k
                         = attributes (editor (Base.new cls InputText.createEditor p)) !! k).
  { intros cls. unfold InputText.construct. cbv zeta. cbn [editor with_editor].
    destruct (minLength p) as [n|]; [destruct (JS.truthyN n)|];
      (destruct (maxLength p) as [m|]; [destruct (JS.truthyN m)|]);
      (destruct (pattern p) as [r|]; [destruct (JS.truthy r)|]);
      rewrite ?set_property_base by (done || compute_done); done. }
  split_and!.
  - reflexivity.
  - apply Htext.
  - apply (Htext InputLangString).
  - unfold InputNumber.new. cbv zeta. cbn [editor with_editor].
    destruct (InputNumber.bound (minInclusive p) _ _) as [lo|]; [destruct (JS.truthyZ lo)|];
      (destruct (InputNumber.bound (maxInclusive p) _ _) as [hi|];
       [destruct (JS.truthyZ hi)|]);
      destruct (negb _);
      rewrite ?set_property_base by (done || compute_done); done.
  - unfold InputList.new. cbv zeta. destruct entries as [es|]; [|done].
    unfold InputList.setListEntries. cbv zeta. cbn [editor with_editor].
    by destruct (add_options_attributes InputList.entry_option es
                   (DOM.add_option (mkOption (Some "") "")
                      (editor (Base.new InputList InputList.createEditor p)))) as [-> _].
  - unfold InputBoolean.new. cbv zeta.
    cbn [editor with_editor with_label_required DOM.removeAttribute
         DOM.with_attributes attributes].
    rewrite lookup_delete. by repeat case_decide.
Qed.

Lemma createEditor_base_attribute (p : ShaclPropertySpec) (k : string) :
  k ∈ base_attributes →
  attributes (InputDate.createEditor p) !! k = None
  ∧ attributes (InputText.createEditor p) !! k = None
  ∧ attributes (InputNumber.createEditor p) !! k = None
  ∧ attributes (InputList.createEditor p) !! k = None
  ∧ attributes (InputBoolean.createEditor p) !! k = None.
Proof.
  intros Hk. apply list_elem_of_In in Hk. simpl in Hk.
  unfold InputDate.createEditor, InputText.createEditor.
  destruct (datatype_is p _), (singleLine p) as [[]|];
    destruct Hk as [<-|[<-|[<-|[<-|[]]]]]; done.
Qed.

Lemma constructed_cases (p : ShaclPropertySpec) (entries : option (list InputListEntry))
    (w : InputBase) (P : InputBase → Prop) :
  P (InputDate.new p) → P (InputText.new p) → P (InputLangString.new p) →
  P (InputNumber.new p) → P (InputList.new p entries) → P (InputBoolean.new p) →
  w ∈ constructed p entries → P w.
Proof.
  intros H1 H2 H3 H4 H5 H6 Hw. unfold constructed in Hw.
  repeat (apply elem_of_cons in Hw as [->|Hw]; [assumption|]).
  by apply elem_of_nil in Hw.
Qed.

Ltac by_constructor Hw :=
  match type of Hw with
  | ?w ∈ constructed ?p ?entries =>
      pattern w; apply (λ P H1 H2 H3 H4 H5 H6,
                          constructed_cases p entries w P H1 H2 H3 H4 H5 H6 Hw)
  end.

Lemma constructed_members (p : ShaclPropertySpec)
    (entries : option (list InputListEntry)) :
  InputDate.new p ∈ constructed p entries
  ∧ InputText.new p ∈ constructed p entries
  ∧ InputLangString.new p ∈ constructed p entries
  ∧ InputNumber.new p ∈ constructed p entries
  ∧ InputList.new p entries ∈ constructed p entries
  ∧ InputBoolean.new p ∈ constructed p entries.
Proof.
  unfold constructed. split_and!.
  - left.
  - right; left.
  - right; right; left.
  - right; right; right; left.
  - right; right; right; right; left.
  - right; right; right; right; right; left.
Qed.

Lemma constructed_required (p : ShaclPropertySpec)
    (entries : option (list InputListEntry)) (w : InputBase) :
  w ∈ constructed p entries →
  required w = match minCount p with Some n => (0 <? n)%N | None => false end.
Proof.
  intros Hw. by_constructor Hw; try reflexivity.
  unfold InputList.new. by destruct entries.
Qed.

(** X1.  An editor of any class but Boolean has the attribute
    [required="true"], and its label the [required] mark, exactly when the
    shape has [minCount > 0]; a Boolean editor never has either, though its
    [required] field is set in the same way. *)
Theorem required_marking (p : ShaclPropertySpec)
    (entries : option (list InputListEntry)) (w : InputBase) :
  w ∈ constructed p entries →
  (required w = true ↔ is_required p)
  ∧ DOM.getAttribute "required" (editor w)
    = match class_of w with
      | InputBoolean => None
      | _ => if required w then Some "true" else None
      end
  ∧ label_required w
    = match class_of w with
      | InputBoolean => false
      | _ => required w
      end.
Proof.
  intros Hw. split.
  { rewrite (constructed_required p entries w Hw).
    apply (Base_new_required InputText InputText.createEditor). }
  assert (Hk : "required" ∈ base_attributes) by compute_done.
  destruct (constructed_base_attribute p entries "required" Hk)
    as (Hdate & Htext & Hlang & Hnum & Hlist & Hbool).
  destruct (createEditor_base_attribute p "required" Hk)
    as (Cdate & Ctext & Cnum & Clist & Cbool).
  assert (Hbase : ∀ cls mk, attributes (mk p) !! "required" = None →
            attributes (editor (Base.new cls mk p)) !! "required"
            = if match minCount p with Some n => (0 <? n)%N | None => false end
              then Some "true" else None).
  { intros cls mk Hmk. destruct (Base_new_written cls mk p) as (-> & _).
    rewrite Hmk. cbn [required Base.new]. by destruct (match minCount p with _ => _ end). }
  unfold DOM.getAttribute.
  by_constructor Hw.
  - split; [|reflexivity]. rewrite Hdate. by apply Hbase.
  - split; [|reflexivity]. rewrite Htext. by apply Hbase.
  - split; [|reflexivity]. rewrite Hlang. by apply Hbase.
  - split; [|reflexivity]. rewrite Hnum. by apply Hbase.
  - split; [|unfold InputList.new; by destruct entries].
    rewrite Hlist.
    replace (required (InputList.new p entries))
      with (match minCount p with Some n => (0 <? n)%N | None => false end)
      by (unfold InputList.new; by destruct entries).
    replace (class_of (InputList.new p entries)) with InputList
      by (unfold InputList.new; by destruct entries).
    by apply Hbase.
  - split; [|reflexivity]. by rewrite Hbool.
Qed.

Lemma required_marking_witness :
  let p := Sample.with_minCount 1 Sample.bare in
  DOM.getAttribute "required" (editor (InputText.new p)) = Some "true"
  ∧ DOM.getAttribute "required" (editor (InputBoolean.new p)) = None
  ∧ required (InputBoolean.new p) = true.
Proof.
  intros p.
  destruct (required_marking p None (InputText.new p)) as (_ & Htext & _);
    [apply constructed_members|].
  destruct (required_marking p None (InputBoolean.new p)) as (Hreq & Hbool & _);
    [apply constructed_members|].
  split_and!.
  - exact Htext.
  - exact Hbool.
  - apply Hreq. exists 1%N. split; [reflexivity | lia].
Defined.

(** X2.  The placeholder of every editor is the description of the
    shape when it has one, and the pattern otherwise; an empty string gives
    none.  A description whose text is empty hides the pattern. *)
Theorem placeholder_rule (p : ShaclPropertySpec)
    (entries : option (list InputListEntry)) (w : InputBase) :
  w ∈ constructed p entries →
  DOM.getAttribute "placeholder" (editor w)
  = match description p, pattern p with
    | Some d, _ => if String.eqb (lexical d) "" then None else Some (lexical d)
    | None, Some s => if String.eqb s "" then None else Some s
    | None, None => None
    end.
Proof.
  intros Hw.
  assert (Hk : "placeholder" ∈ base_attributes) by compute_done.
  destruct (constructed_base_attribute p entries "placeholder" Hk)
    as (Hdate & Htext & Hlang & Hnum & Hlist & Hbool).
  destruct (createEditor_base_attribute p "placeholder" Hk)
    as (Cdate & Ctext & Cnum & Clist & Cbool).
  assert (Hbase : ∀ cls mk, attributes (mk p) !! "placeholder" = None →
            attributes (editor (Base.new cls mk p)) !! "placeholder"
            = match description p, pattern p with
              | Some d, _ => if String.eqb (lexical d) "" then None else Some (lexical d)
              | None, Some s => if String.eqb s "" then None else Some s
              | None, None => None
              end).
  { intros cls mk Hmk. destruct (Base_new_written cls mk p) as (_ & -> & _).
    rewrite Hmk. unfold JS.truthy.
    destruct (description p) as [d|]; [by destruct (String.eqb (lexical d) "")|].
    destruct (pattern p) as [s|]; [by destruct (String.eqb s "")|done]. }
  unfold DOM.getAttribute. by_constructor Hw.
  - rewrite Hdate. by apply Hbase.
  - rewrite Htext. by apply Hbase.
  - rewrite Hlang. by apply Hbase.
  - rewrite Hnum. by apply Hbase.
  - rewrite Hlist. by apply Hbase.
  - rewrite Hbool, decide_False by done. by apply Hbase.
Qed.

Lemma placeholder_rule_witness :
  let hidden :=
    mkSpec "name" "http://example.org/name" (Some (mkLiteral "" "" DataFactory.xsd_string))
           None None None None (Some "[a-z]+") None None None None None None None None
           None None None Sample.emptyConfig in
  DOM.getAttribute "placeholder" (editor (InputText.new hidden)) = None
  ∧ DOM.getAttribute "placeholder"
      (editor (InputText.new (Sample.with_pattern "[a-z]+" Sample.bare)))
    = Some "[a-z]+".
Proof.
  intros hidden. split.
  - apply (placeholder_rule hidden None), constructed_members.
  - apply (placeholder_rule (Sample.with_pattern "[a-z]+" Sample.bare) None),
      constructed_members.
Defined.

(** ** Fresh editors *)

Lemma set_property_dirty (k v : string) (e : Element) :
  dirty_value (DOM.set_property k v e) = dirty_value e.
Proof. unfold DOM.set_property. by destruct (DOM.reflected _ _). Qed.




(** ** List editor *)

Lemma add_options_selection {A : Type} (mk : A → HTMLOptionElement) (l : list A)
    (e : Element) :
  selectedIndex (fold_left (λ select a, DOM.add_option (mk a) select) l e)
  = match l, selectedIndex e with
    | _ :: _, None => Some 0%nat
    | _, s => s
    end.
Proof.
  revert e. induction l as [|a l IH]; intros e; simpl; [by destruct (selectedIndex e)|].
  rewrite IH. simpl. by destruct l, (selectedIndex e).
Qed.

Lemma setListEntries_selection (entries : list InputListEntry) (w : InputBase) :
  selectedIndex (editor (InputList.setListEntries entries w))
  = match selectedIndex (editor w) with
    | Some i => Some i
    | None => Some 0%nat
    end.
Proof.
  unfold InputList.setListEntries. cbv zeta. cbn [editor with_editor].
  rewrite add_options_selection. cbn [selectedIndex DOM.add_option DOM.with_selection].
  by destruct entries, (selectedIndex (editor w)).
Qed.


Lemma select_set_missing (e : Element) (v : string) :
  tagName e = SELECT → (∀ o, o ∈ options e → option_value o ≠ v) →
  DOM.get_value (DOM.set_value v e) = "".
Proof.
  intros Htag Hno. unfold DOM.set_value. rewrite Htag.
  destruct (list_find (λ o, option_value o = v) (options e)) as [[j o']|] eqn:Hfind.
  - apply list_find_Some in Hfind as (Hj & Hv' & _).
    apply list_elem_of_lookup_2 in Hj. by destruct (Hno o' Hj).
  - unfold DOM.get_value. simpl. by rewrite Htag.
Qed.

(** X5.  A List editor that was just built writes nothing.  After
    [setValue(t)] it writes the term made of the value of [t] when that value
    is not empty and is the value of one of the entries, and nothing
    otherwise: a value outside the list is dropped, without an error. *)
Theorem list_setValue `{RT : Runtime} (p : ShaclPropertySpec)
    (entries : list InputListEntry) (t : Term) :
  let w := InputList.new p (Some entries) in
  toRDFObject w = None
  ∧ ∃ w', setValue t w = JS.Normal w'
          ∧ toRDFObject w'
            = if bool_decide (value t ≠ ""
                              ∧ value t ∈ (λ item, value (entry_value item)) <$> entries)
              then Some (term_of_value p (value t))
              else None.
Proof.
  intros w. subst w.
  destruct (InputList_choices p entries _ (state_of_refl (InputList.new p (Some entries))))
    as (Hc & Hp & Htag & Ho).
  split.
  - rewrite text_list_toRDFObject by (by right).
    assert (Hsel : selectedIndex (editor (InputList.new p (Some entries))) = Some 0%nat).
    { unfold InputList.new. cbv zeta.
      rewrite setListEntries_selection.
      by destruct (Base_new_options InputList InputList.createEditor p) as (_ & -> & _). }
    unfold DOM.get_value. by rewrite Htag, Hsel, Ho.
  - exists (Base.setValue t (InputList.new p (Some entries))).
    split; [unfold setValue; by rewrite Hc|].
    rewrite text_list_toRDFObject by (by right).
    unfold Base.setValue. cbn [editor with_editor property]. rewrite Hp.
    case_bool_decide as Hcase.
    + destruct Hcase as [Hne Hin].
      apply list_elem_of_fmap in Hin as (item & Hv & Hitem).
      apply list_elem_of_lookup_1 in Hitem as (i & Hi).
      rewrite (select_set_offered _ (value t) (S i) (InputList.entry_option item));
        [|done| |by rewrite Hv].
      * apply truthy_spec in Hne. by rewrite Hne.
      * rewrite Ho. simpl. by rewrite list_lookup_fmap, Hi.
    + destruct (String.eqb_spec (value t) "") as [Hempty|Hne].
      * rewrite Hempty.
        rewrite (select_set_offered _ "" 0%nat (mkOption (Some "") "")); [done|done| |done].
        by rewrite Ho.
      * rewrite select_set_missing; [done|done|].
        intros o Hin. rewrite Ho in Hin.
        apply elem_of_cons in Hin as [->|Hin]; [intros E; apply Hne; symmetry; exact E|].
        apply list_elem_of_fmap in Hin as (item & -> & Hitem).
        change (option_value (InputList.entry_option item)) with (value (entry_value item)).
        intros Hv. apply Hcase. split; [done|].
        apply list_elem_of_fmap. by exists item.
Qed.

(** ** LangString editor *)

(** X6.  With a non-empty [languageIn] the chooser of a new
    LangString editor offers these language tags, in order, and has the
    first one selected, so that text typed without touching the chooser is
    written with that first tag; without [languageIn] the chooser is an empty
    text field of at most 5 characters and the text is written with the
    datatype of the shape. *)
Theorem langString_chooser `{RT : Runtime} (p : ShaclPropertySpec) (x : string) :
  x ≠ "" →
  let w := InputLangString.new p in
  let typed := with_editor (DOM.set_value x (editor w)) w in
  match languageIn p with
  | Some (first :: others) =>
      (option_value <$> options (InputLangString.createLangChooser p))
      = value <$> (first :: others)
      ∧ InputLangString.chooser_value w = value first
      ∧ toRDFObject typed
        = Some (TermLiteral
                  (DataFactory.literal x
                     (if String.eqb (value first) ""
                      then DataFactory.DataType (datatype p)
                      else DataFactory.Language (value first))))
  | _ =>
      tagName (InputLangString.createLangChooser p) = INPUT
      ∧ DOM.getAttribute "maxlength" (InputLangString.createLangChooser p) = Some "5"
      ∧ InputLangString.chooser_value w = ""
      ∧ toRDFObject typed
        = Some (TermLiteral
                  (DataFactory.literal x (DataFactory.DataType (datatype p))))
  end.
Proof.
  intros Hx w typed.
  destruct (InputText_construct_shape InputLangString p) as (Hc & Hp & Htag).
  assert (Hval : DOM.get_value (editor typed) = x).
  { subst typed w. cbn [editor with_editor]. by apply get_set_value. }
  assert (Hterm : toRDFObject typed
                  = Some (TermLiteral
                            (DataFactory.literal x
                               (if JS.truthy (InputLangString.chooser_value w)
                                then DataFactory.Language (InputLangString.chooser_value w)
                                else DataFactory.DataType (datatype p))))).
  { rewrite langString_toRDFObject by exact Hc. rewrite Hval.
    apply truthy_spec in Hx. rewrite Hx.
    replace (InputLangString.chooser_value typed) with (InputLangString.chooser_value w)
      by reflexivity.
    replace (property typed) with (property (InputText.construct InputLangString p))
      by reflexivity.
    by rewrite Hp. }
  pose proof (createLangChooser_shape p) as Hshape.
  assert (Hkeep : ∀ e,
    let c := DOM.classList_add ["lang-chooser"]
               (DOM.set_property "placeholder" "lang?"
                  (DOM.set_property "title" "Language of the text" e)) in
    selectedIndex c = selectedIndex e ∧ dirty_value c = dirty_value e
    ∧ (tagName e = INPUT → attributes c !! "maxlength" = attributes e !! "maxlength"
                           ∧ attributes c !! "value" = attributes e !! "value")).
  { intros e c. subst c. cbn [DOM.classList_add DOM.with_classList selectedIndex
                               dirty_value attributes].
    rewrite !set_property_dirty.
    destruct (set_property_keeps "placeholder" "lang?"
                (DOM.set_property "title" "Language of the text" e)) as (_ & _ & ->).
    destruct (set_property_keeps "title" "Language of the text" e) as (Ht & _ & ->).
    split_and!; try done. intros He.
    rewrite !set_property_attribute, Ht, He. done. }
  unfold InputLangString.chooser_value in *. subst w.
  cbn [langChooser InputLangString.new with_langChooser] in *.
  unfold has_languageIn, offered in Hshape.
  destruct (languageIn p) as [[|first others]|] eqn:Hlangs.
  - unfold InputLangString.createLangChooser in *. rewrite Hlangs in *.
    destruct (Hkeep (DOM.set_property "maxLength" "5" (DOM.createElement INPUT)))
      as (_ & Hd & Ha).
    destruct Ha as [Hmax Hv]; [done|].
    assert (Hcv : DOM.get_value
                    (DOM.classList_add ["lang-chooser"]
                       (DOM.set_property "placeholder" "lang?"
                          (DOM.set_property "title" "Language of the text"
                             (DOM.set_property "maxLength" "5" (DOM.createElement INPUT)))))
                  = "").
    { unfold DOM.get_value. by rewrite Hshape, Hd, Hv. }
    rewrite Hcv in Hterm. split_and!; try done;
      try (unfold DOM.getAttribute; by rewrite Hmax).
  - destruct Hshape as [Hsel Hopts].
    assert (Hcv : DOM.get_value (InputLangString.createLangChooser p) = value first).
    { unfold DOM.get_value. rewrite Hsel.
      assert (selectedIndex (InputLangString.createLangChooser p) = Some 0%nat) as ->.
      { unfold InputLangString.createLangChooser. rewrite Hlangs.
        match goal with
        | |- context [fold_left ?f ?l ?e] =>
            destruct (Hkeep (fold_left f l e)) as (-> & _);
            rewrite (add_options_selection (λ lang, mkOption None (value lang)) l e)
        end. done. }
      destruct (options (InputLangString.createLangChooser p)) as [|o os]; [done|].
      simpl in Hopts. injection Hopts as Ho _. by simpl. }
    rewrite Hcv in Hterm. split_and!; try done.
    rewrite Hterm. unfold JS.truthy. by destruct (String.eqb (value first) "").
  - unfold InputLangString.createLangChooser in *. rewrite Hlangs in *.
    destruct (Hkeep (DOM.set_property "maxLength" "5" (DOM.createElement INPUT)))
      as (_ & Hd & Ha).
    destruct Ha as [Hmax Hv]; [done|].
    assert (Hcv : DOM.get_value
                    (DOM.classList_add ["lang-chooser"]
                       (DOM.set_property "placeholder" "lang?"
                          (DOM.set_property "title" "Language of the text"
                             (DOM.set_property "maxLength" "5" (DOM.createElement INPUT)))))
                  = "").
    { unfold DOM.get_value. by rewrite Hshape, Hd, Hv. }
    rewrite Hcv in Hterm. split_and!; try done;
      try (unfold DOM.getAttribute; by rewrite Hmax).
Qed.

Lemma langString_chooser_witness :
  let p := Sample.with_languageIn [Sample.plain "de"; Sample.plain "en"] Sample.bare in
  "Hallo" ≠ ""
  ∧ toRDFObject (RT := Engine.runtime)
      (with_editor (DOM.set_value "Hallo" (editor (InputLangString.new p)))
         (InputLangString.new p))
    = Some (Sample.tagged "Hallo" "de").
Proof.
  intros p. split; [done|].
  exact (proj2 (proj2 (langString_chooser (RT := Engine.runtime) p "Hallo"
                         ltac:(done)))).
Defined.

(** ** Loading values *)

Lemma set_value_twice (x y : string) (e : Element) :
  DOM.set_value y (DOM.set_value x e) = DOM.set_value y e.
Proof. destruct e as [[] a ex cl d c o s]; reflexivity. Qed.

Lemma Base_setValue_twice (t1 t2 : Term) (w : InputBase) :
  Base.setValue t2 (Base.setValue t1 w) = Base.setValue t2 w.
Proof.
  unfold Base.setValue. destruct w as [c p e r lr ch]; cbn [editor with_editor].
  by rewrite set_value_twice.
Qed.

Lemma type_set_value (x : string) (e : Element) :
  DOM.type (DOM.set_value x e) = DOM.type e.
Proof. destruct e as [[] a ex cl d c o s]; reflexivity. Qed.

(** X7.  Loading a literal makes the editor forget the literal loaded
    before: [setValue(l1)] followed by [setValue(l2)] leaves the editor in
    the state that [setValue(l2)] alone gives, for every class and every
    state; so loading the same literal twice is loading it once. *)
Theorem setValue_last_wins `{RT : Runtime} (w w1 : InputBase) (l1 l2 : Literal) :
  setValue (TermLiteral l1) w = JS.Normal w1 →
  setValue (TermLiteral l2) w1 = setValue (TermLiteral l2) w
  ∧ setValue (TermLiteral l1) w1 = JS.Normal w1.
Proof.
  intros H1.
  assert (Hlast : ∀ l, setValue (TermLiteral l) w1 = setValue (TermLiteral l) w).
  { intros l. unfold setValue in *.
    destruct (class_of w) eqn:Hc.
    - unfold InputDate.setValue in *.
      destruct (Date_toISOString (value (TermLiteral l1))) as [iso1|]; [|done].
      injection H1 as <-.
      replace (class_of (Base.setValue _ w)) with (class_of w) by reflexivity.
      rewrite Hc. destruct (Date_toISOString (value (TermLiteral l))) as [iso|]; [|done].
      unfold Base.setValue at 2. cbn [editor with_editor property].
      rewrite type_set_value. f_equal. apply Base_setValue_twice.
    - injection H1 as <-.
      replace (class_of (Base.setValue _ w)) with (class_of w) by reflexivity.
      rewrite Hc. f_equal. apply Base_setValue_twice.
    - injection H1 as <-.
      destruct w as [c p e r lr [ch|]]; simpl in Hc; subst c;
        cbn [class_of with_langChooser with_editor Base.setValue]; f_equal;
        unfold InputLangString.setValue, Base.setValue;
        cbn [with_langChooser with_editor editor langChooser class_of property
             required label_required fmap option_fmap option_map];
        by rewrite !set_value_twice.
    - injection H1 as <-.
      destruct w as [c p e r lr ch]; simpl in Hc; subst c.
      cbn [class_of with_editor]. f_equal; by destruct e.
    - injection H1 as <-.
      replace (class_of (Base.setValue _ w)) with (class_of w) by reflexivity.
      rewrite Hc. f_equal. apply Base_setValue_twice.
    - injection H1 as <-.
      replace (class_of (Base.setValue _ w)) with (class_of w) by reflexivity.
      rewrite Hc. f_equal. apply Base_setValue_twice. }
  split; [apply Hlast|]. by rewrite Hlast.
Qed.

Lemma setValue_last_wins_witness :
  let w := InputText.new Sample.bare in
  let l1 := mkLiteral "a" "" DataFactory.xsd_string in
  let l2 := mkLiteral "b" "" DataFactory.xsd_string in
  setValue (RT := Engine.runtime) (TermLiteral l1) w
  = JS.Normal (Base.setValue (TermLiteral l1) w)
  ∧ setValue (RT := Engine.runtime) (TermLiteral l2) (Base.setValue (TermLiteral l1) w)
    = setValue (RT := Engine.runtime) (TermLiteral l2) w.
Proof.
  intros w l1 l2. split; [reflexivity|].
  exact (proj1 (setValue_last_wins (RT := Engine.runtime) w _ l1 l2 eq_refl)).
Defined.



(** ** What the editors write *)




(** ** The factory *)

Lemma inputFactory_built (p : ShaclPropertySpec) :
  let w := fst (inputFactory p) in
  match class_of w with
  | InputDate => w = InputDate.new p
  | InputText => w = InputText.new p
  | InputLangString => w = InputLangString.new p
  | InputBoolean => w = InputBoolean.new p
  | InputNumber => w = InputNumber.new p
  | InputList =>
      ∃ i l, shaclIn p = Some i ∧ i ≠ "" ∧ lists (config p) !! i = Some l ∧ l ≠ []
             ∧ snd (inputFactory p) = []
             ∧ w = InputList.new p
                     (Some (createInputListEntries l (shapesGraph (config p))
                              (config_language (config p))))
  end.
Proof.
  assert (Hrest : ∀ (c : list ConsoleMessage) (r : InputBase * list ConsoleMessage),
    r = (if (datatype_is p (PREFIX_RDF ++ "langString") || has_languageIn p)%bool
         then (InputLangString.new p, c)
         else
           if case (stripped_datatype p) "string" then (InputText.new p, c)
           else if (case (stripped_datatype p) "integer"
                    || case (stripped_datatype p) "float"
                    || case (stripped_datatype p) "double"
                    || case (stripped_datatype p) "decimal")%bool
           then (InputNumber.new p, c)
           else if (case (stripped_datatype p) "date"
                    || case (stripped_datatype p) "dateTime")%bool
           then (InputDate.new p, c)
           else if case (stripped_datatype p) "boolean" then (InputBoolean.new p, c)
           else (InputText.new p, c)) →
    match class_of (fst r) with
    | InputDate => fst r = InputDate.new p
    | InputText => fst r = InputText.new p
    | InputLangString => fst r = InputLangString.new p
    | InputBoolean => fst r = InputBoolean.new p
    | InputNumber => fst r = InputNumber.new p
    | InputList => False
    end).
  { intros c r ->.
    repeat match goal with
           | |- context [if ?b then _ else _] => destruct b
           end; reflexivity. }
  assert (Hweak : ∀ w' (Q : Prop),
    match class_of w' with
    | InputDate => w' = InputDate.new p
    | InputText => w' = InputText.new p
    | InputLangString => w' = InputLangString.new p
    | InputBoolean => w' = InputBoolean.new p
    | InputNumber => w' = InputNumber.new p
    | InputList => False
    end →
    match class_of w' with
    | InputDate => w' = InputDate.new p
    | InputText => w' = InputText.new p
    | InputLangString => w' = InputLangString.new p
    | InputBoolean => w' = InputBoolean.new p
    | InputNumber => w' = InputNumber.new p
    | InputList => Q
    end).
  { intros w' Q. by destruct (class_of w'). }
  intros w. subst w. unfold inputFactory.
  destruct (shaclIn p) as [i|] eqn:Hi; [|by apply Hweak, (Hrest [])].
  destruct (JS.truthy i) eqn:Ht; [|by apply Hweak, (Hrest [])].
  destruct (lists (config p) !! i) as [[|x l]|] eqn:Hl;
    [by apply Hweak, (Hrest [list_not_found i (lists (config p))])| |
     by apply Hweak, (Hrest [list_not_found i (lists (config p))])].
  simpl. exists i, (x :: l). apply truthy_spec in Ht. by split_and!.
Qed.

(** X10.  The factory writes at most one message to the console.  It
    writes none exactly when it builds a List editor or the shape names no
    list; the message it writes names the list of the shape, which is then
    missing or empty. *)
Theorem factory_console (p : ShaclPropertySpec) :
  (snd (inputFactory p) = []
   ↔ class_of (fst (inputFactory p)) = InputList
     ∨ ¬ ∃ i, shaclIn p = Some i ∧ i ≠ "")
  ∧ (∀ m, m ∈ snd (inputFactory p) →
       ∃ i, shaclIn p = Some i ∧ i ≠ ""
            ∧ non_empty (lists (config p) !! i) = false
            ∧ snd (inputFactory p) = [list_not_found i (lists (config p))]).
Proof.
  pose proof (inputFactory_built p) as Hb. cbv zeta in Hb.
  assert (Hrest : ∀ c : list ConsoleMessage,
    snd (if (datatype_is p (PREFIX_RDF ++ "langString") || has_languageIn p)%bool
         then (InputLangString.new p, c)
         else
           if case (stripped_datatype p) "string" then (InputText.new p, c)
           else if (case (stripped_datatype p) "integer"
                    || case (stripped_datatype p) "float"
                    || case (stripped_datatype p) "double"
                    || case (stripped_datatype p) "decimal")%bool
           then (InputNumber.new p, c)
           else if (case (stripped_datatype p) "date"
                    || case (stripped_datatype p) "dateTime")%bool
           then (InputDate.new p, c)
           else if case (stripped_datatype p) "boolean" then (InputBoolean.new p, c)
           else (InputText.new p, c)) = c).
  { intros c.
    repeat match goal with
           | |- context [if ?b then _ else _] => destruct b
           end; reflexivity. }
  assert (Hsnd : snd (inputFactory p)
                 = match shaclIn p with
                   | Some i =>
                       if (JS.truthy i && negb (non_empty (lists (config p) !! i)))%bool
                       then [list_not_found i (lists (config p))]
                       else []
                   | None => []
                   end).
  { unfold inputFactory. destruct (shaclIn p) as [i|]; [|apply Hrest].
    destruct (JS.truthy i); [|apply Hrest].
    destruct (lists (config p) !! i) as [[|x l]|]; simpl; try apply Hrest. done. }
  split.
  - split.
    + intros Hnil. rewrite Hsnd in Hnil.
      destruct (shaclIn p) as [i|] eqn:Hi; [|right; by intros (i & ? & _)].
      destruct (JS.truthy i) eqn:Ht;
        [|right; intros (i' & [= <-] & Hne); apply truthy_spec in Hne; congruence].
      destruct (non_empty (lists (config p) !! i)) eqn:Hne; [|done].
      left. unfold inputFactory. rewrite Hi, Ht.
      by destruct (lists (config p) !! i) as [[|x l]|].
    + intros [Hc|Hno].
      * rewrite Hc in Hb. by destruct Hb as (i & l & _ & _ & _ & _ & Hs & _).
      * rewrite Hsnd. destruct (shaclIn p) as [i|]; [|done].
        destruct (JS.truthy i) eqn:Ht; [|done].
        destruct Hno. exists i. split; [done|]. by apply truthy_spec.
  - intros m Hm. rewrite Hsnd in Hm |- *.
    destruct (shaclIn p) as [i|]; [|by apply elem_of_nil in Hm].
    destruct (JS.truthy i) eqn:Ht; [|by apply elem_of_nil in Hm].
    destruct (non_empty (lists (config p) !! i)) eqn:Hne; [by apply elem_of_nil in Hm|].
    exists i. apply truthy_spec in Ht. by split_and!.
Qed.




(** ** Constraints of the widgets *)





(** * The Config class *)

Lemma Config_get_set (key key' : string) (v : ConfigClass.Value) (o : ConfigClass.JSObject) :
  ConfigClass.get (ConfigClass.set key v o) key'
  = if decide (key = key') then Some v else ConfigClass.get o key'.
Proof.
  induction o as [|[k w] o IH]; simpl.
  - destruct (String.eqb_spec key key'); case_decide; congruence.
  - destruct (String.eqb_spec k key) as [->|Hk]; simpl.
    + destruct (String.eqb_spec key key'); case_decide; congruence.
    + destruct (String.eqb_spec k key') as [->|Hk'].
      * case_decide; congruence.
      * exact IH.
Qed.

Lemma Config_keys_set (key : string) (v : ConfigClass.Value) (o : ConfigClass.JSObject) :
  key ∈ ConfigClass.keys o → ConfigClass.keys (ConfigClass.set key v o) = ConfigClass.keys o.
Proof.
  unfold ConfigClass.keys. induction o as [|[k w] o IH]; simpl.
  - by intros ?%elem_of_nil.
  - intros Hin. destruct (String.eqb_spec k key) as [->|Hk]; simpl; [done|].
    f_equal. apply IH. apply elem_of_cons in Hin as [->|]; [done|done].
Qed.

Lemma Config_get_None (o : ConfigClass.JSObject) (key : string) :
  key ∉ ConfigClass.keys o → ConfigClass.get o key = None.
Proof.
  unfold ConfigClass.keys. induction o as [|[k w] o IH]; simpl; [done|].
  intros Hk. apply not_elem_of_cons in Hk as [Hne Hk].
  destruct (String.eqb_spec k key); [congruence | by apply IH].
Qed.

Lemma Config_new_keys (h : ConfigClass.Heap) :
  ConfigClass.keys (ConfigClass.new h).1 = ConfigClass.fields.
Proof. reflexivity. Qed.

(** The loop of [Config.from] over a list of keys. *)
Lemma Config_from_loop (dataset : gmap string string) (ks : list string)
    (config : ConfigClass.JSObject) (key : string) :
  ConfigClass.get
    (fold_left (λ config key,
                  match dataset !! key with
                  | Some v => ConfigClass.set key (ConfigClass.Str v) config
                  | None => config
                  end) ks config) key
  = match dataset !! key with
    | Some v => if bool_decide (key ∈ ks) then Some (ConfigClass.Str v)
                else ConfigClass.get config key
    | None => ConfigClass.get config key
    end.
Proof.
  revert config. induction ks as [|k ks IH]; intros config; simpl.
  - by destruct (dataset !! key).
  - rewrite IH. destruct (dataset !! key) as [v|] eqn:Hkey.
    + destruct (decide (k = key)) as [->|Hne].
      * rewrite Hkey, Config_get_set, decide_True by done.
        rewrite (bool_decide_eq_true_2 (key ∈ key :: ks)) by left.
        by case_bool_decide.
      * assert (ConfigClass.get
                  match dataset !! k with
                  | Some v0 => ConfigClass.set k (ConfigClass.Str v0) config
                  | None => config
                  end key = ConfigClass.get config key) as ->.
        { destruct (dataset !! k); [|done]. by rewrite Config_get_set, decide_False. }
        repeat case_bool_decide; try done.
        -- exfalso. match goal with H : key ∉ _ |- _ => apply H end. by right.
        -- exfalso. match goal with H : key ∈ k :: ks |- _ =>
             apply elem_of_cons in H as [->|]; done end.
    + destruct (dataset !! k) as [w|] eqn:Hk; [|done].
      rewrite Config_get_set. case_decide; [congruence|done].
Qed.

Lemma Config_from_loop_keys (dataset : gmap string string) (ks : list string)
    (config : ConfigClass.JSObject) :
  ks ⊆ ConfigClass.keys config →
  ConfigClass.keys
    (fold_left (λ config key,
                  match dataset !! key with
                  | Some v => ConfigClass.set key (ConfigClass.Str v) config
                  | None => config
                  end) ks config)
  = ConfigClass.keys config.
Proof.
  revert config. induction ks as [|k ks IH]; intros config Hsub; simpl; [done|].
  assert (Hk : k ∈ ConfigClass.keys config) by (apply Hsub; left).
  assert (Hks : ks ⊆ ConfigClass.keys config) by (intros x Hx; apply Hsub; by right).
  destruct (dataset !! k); [|by apply IH].
  rewrite IH; rewrite Config_keys_set; done.
Qed.

(** The fields of the object that [Config.from] returns. *)
Lemma Config_from_field (dataset : gmap string string) (nav : string)
    (h : ConfigClass.Heap) (key : string) :
  ConfigClass.get (ConfigClass.from dataset nav h).1 key
  = if decide (key = "language")
    then Some (ConfigClass.Str
                 match dataset !! "language" with
                 | Some v => if JS.truthy v then v else nav
                 | None => nav
                 end)
    else match dataset !! key with
         | Some v => if bool_decide (key ∈ ConfigClass.fields)
                     then Some (ConfigClass.Str v)
                     else None
         | None => ConfigClass.get (ConfigClass.new h).1 key
         end.
Proof.
  unfold ConfigClass.from.
  destruct (ConfigClass.new h) as [config h'] eqn:Hnew.
  assert (Hconfig : config = (ConfigClass.new h).1) by (by rewrite Hnew).
  assert (Hkeys : ConfigClass.keys config = ConfigClass.fields)
    by (rewrite Hconfig; apply Config_new_keys).
  assert (Hlang : ConfigClass.get config "language" = Some ConfigClass.Null)
    by (by rewrite Hconfig).
  assert (Hnone : ∀ k, k ∉ ConfigClass.fields → ConfigClass.get config k = None).
  { intros k Hk. apply Config_get_None. by rewrite Hkeys. }
  cbn [fst]. rewrite Hkeys.
  set (loop := fold_left _ ConfigClass.fields config).
  assert (Hloop : ∀ k, ConfigClass.get loop k = _) by (intros k; apply Config_from_loop).
  assert (Hnow : ConfigClass.get loop "language"
                 = match dataset !! "language" with
                   | Some v => Some (ConfigClass.Str v)
                   | None => Some ConfigClass.Null
                   end).
  { rewrite Hloop, Hlang. destruct (dataset !! "language"); [|done].
    by rewrite bool_decide_eq_true_2 by compute_done. }
  clearbody loop. rewrite Hnow.
  case_decide as Hkey.
  - subst key. destruct (dataset !! "language") as [v|]; simpl.
    + destruct (JS.truthy v); simpl; [exact Hnow|].
      by rewrite Config_get_set, decide_True.
    + by rewrite Config_get_set, decide_True.
  - assert (Hget : ConfigClass.get
                     (if negb (ConfigClass.truthy
                                 match dataset !! "language" with
                                 | Some v => Some (ConfigClass.Str v)
                                 | None => Some ConfigClass.Null
                                 end)
                      then ConfigClass.set "language" (ConfigClass.Str nav) loop
                      else loop) key = ConfigClass.get loop key).
    { destruct (negb _); [|done]. rewrite Config_get_set. by case_decide. }
    rewrite Hget, Hloop. destruct (dataset !! key) as [v|]; [|done].
    case_bool_decide; [done|]. by apply Hnone.
Qed.

Lemma Config_from_keys (dataset : gmap string string) (nav : string)
    (h : ConfigClass.Heap) :
  ConfigClass.keys (ConfigClass.from dataset nav h).1 = ConfigClass.fields.
Proof.
  unfold ConfigClass.from.
  destruct (ConfigClass.new h) as [config h'] eqn:Hnew.
  assert (Hkeys : ConfigClass.keys config = ConfigClass.fields).
  { replace config with (ConfigClass.new h).1 by (by rewrite Hnew). reflexivity. }
  cbn [fst]. rewrite Hkeys.
  assert (Hloop := Config_from_loop_keys dataset ConfigClass.fields config).
  rewrite Hkeys in Hloop. specialize (Hloop ltac:(done)).
  destruct (negb _); [|done].
  rewrite Config_keys_set; [done|]. rewrite Hloop. compute_done.
Qed.

(** X14.  [Config.from] copies into the new Config every entry of the
    dataset whose name is an own property of Config, the private fields
    included, as a string; a field without an entry keeps its initial value
    (for [language] see the next theorem); no property is added. *)
Theorem Config_from_copies_dataset (dataset : gmap string string) (nav : string)
    (h : ConfigClass.Heap) :
  (∀ key v,
     key ∈ ConfigClass.fields → key ≠ "language" → dataset !! key = Some v →
     ConfigClass.get (ConfigClass.from dataset nav h).1 key = Some (ConfigClass.Str v))
  ∧ (∀ key,
       key ≠ "language" → dataset !! key = None →
       ConfigClass.get (ConfigClass.from dataset nav h).1 key
       = ConfigClass.get (ConfigClass.new h).1 key)
  ∧ ConfigClass.keys (ConfigClass.from dataset nav h).1 = ConfigClass.fields.
Proof.
  split_and!.
  - intros key v Hin Hne Hv. rewrite Config_from_field, decide_False, Hv by done.
    by rewrite bool_decide_eq_true_2.
  - intros key Hne Hv. by rewrite Config_from_field, decide_False, Hv.
  - apply Config_from_keys.
Qed.

Lemma Config_from_copies_dataset_witness :
  let dataset : gmap string string :=
    {[ "shapesUrl" := "http://example.org/shapes.ttl"; "_lists" := "x" ]} in
  let config := (ConfigClass.from dataset "en" (ConfigClass.mkHeap ∅ 0)).1 in
  ConfigClass.get config "shapesUrl"
  = Some (ConfigClass.Str "http://example.org/shapes.ttl")
  ∧ ConfigClass.get config "_lists" = Some (ConfigClass.Str "x")
  ∧ ConfigClass.get config "loadOwlImports" = Some (ConfigClass.Str "true").
Proof.
  intros dataset config.
  destruct (Config_from_copies_dataset dataset "en" (ConfigClass.mkHeap ∅ 0))
    as (Hcopy & Hkeep & _).
  split_and!.
  - apply Hcopy; [compute_done | discriminate | reflexivity].
  - apply Hcopy; [compute_done | discriminate | reflexivity].
  - rewrite Hkeep; [reflexivity | discriminate | reflexivity].
Defined.

(** X15.  The language of a Config made by [Config.from] is the
    [language] entry of the dataset when that is a non-empty string, and
    [navigator.language] otherwise: it is never [null], and an empty entry
    counts as none. *)
Theorem Config_from_language (dataset : gmap string string) (nav : string)
    (h : ConfigClass.Heap) :
  ConfigClass.get (ConfigClass.from dataset nav h).1 "language"
  = Some (ConfigClass.Str
            match dataset !! "language" with
            | Some v => if String.eqb v "" then nav else v
            | None => nav
            end).
Proof.
  rewrite Config_from_field, decide_True by done.
  destruct (dataset !! "language") as [v|]; [|done].
  unfold JS.truthy. by destruct (String.eqb v "").
Qed.

(** The private fields of a Config made from a dataset without an entry for
    them are the fresh objects of its constructor. *)
Lemma Config_from_private (dataset : gmap string string) (nav : string)
    (h : ConfigClass.Heap) (key : string) :
  key ∈ ConfigClass.private_fields →
  ∃ i : nat, (i < 7)%nat
       ∧ (∀ h', ConfigClass.get (ConfigClass.new h').1 key
                = Some (ConfigClass.Ref (ConfigClass.next h' + i)%nat)).
Proof.
  intros Hin. apply list_elem_of_In in Hin. simpl in Hin.
  destruct Hin as [<-|[<-|[<-|[<-|[<-|[<-|[<-|[]]]]]]]];
    [exists 0%nat | exists 1%nat | exists 2%nat | exists 3%nat | exists 4%nat
    | exists 5%nat | exists 6%nat];
    (split; [lia|]); intros h'; simpl; do 2 f_equal; lia.
Qed.

Lemma Config_new_next (h : ConfigClass.Heap) :
  ConfigClass.next (ConfigClass.new h).2 = (ConfigClass.next h + 7)%nat.
Proof. simpl. lia. Qed.

Lemma Config_from_next (dataset : gmap string string) (nav : string)
    (h : ConfigClass.Heap) :
  (ConfigClass.from dataset nav h).2 = (ConfigClass.new h).2.
Proof. reflexivity. Qed.

Lemma Config_equals_false (this other : ConfigClass.JSObject) (key : string) :
  key ∈ ConfigClass.keys this →
  ConfigClass.get this key ≠ ConfigClass.get other key →
  ConfigClass.equals this (Some other) = false.
Proof.
  intros Hin Hne. unfold ConfigClass.equals.
  apply not_true_is_false. intros Hall.
  rewrite forallb_forall in Hall. specialize (Hall key).
  rewrite <- list_elem_of_In in Hall. specialize (Hall Hin).
  by apply bool_decide_eq_true in Hall.
Qed.

(** X16.  Two Configs made one after the other are never equal, whatever
    their datasets, unless both datasets carry an entry for every private
    field: each constructor call makes its own theme, lists, groups, stores,
    plugins and prefixes, and [equals] compares these by identity. *)
Theorem Config_equals_fresh (dataset1 dataset2 : gmap string string)
    (nav1 nav2 : string) (h : ConfigClass.Heap) (key : string) :
  key ∈ ConfigClass.private_fields →
  dataset1 !! key = None ∨ dataset2 !! key = None →
  let first := ConfigClass.from dataset1 nav1 h in
  let second := ConfigClass.from dataset2 nav2 first.2 in
  ConfigClass.equals first.1 (Some second.1) = false
  ∧ ConfigClass.equals second.1 (Some first.1) = false.
Proof.
  intros Hin Hnone first second.
  assert (Hfield : key ∈ ConfigClass.fields).
  { apply list_elem_of_In in Hin. simpl in Hin.
    destruct Hin as [<-|[<-|[<-|[<-|[<-|[<-|[<-|[]]]]]]]]; compute_done. }
  assert (Hlang : key ≠ "language").
  { intros ->. revert Hin. compute_done. }
  destruct (Config_from_private dataset1 nav1 h key Hin) as (i & Hi & Hnew).
  assert (H1 : ConfigClass.get first.1 key
               = match dataset1 !! key with
                 | Some v => Some (ConfigClass.Str v)
                 | None => Some (ConfigClass.Ref (ConfigClass.next h + i))
                 end).
  { subst first. rewrite Config_from_field, decide_False by done.
    destruct (dataset1 !! key); [by rewrite bool_decide_eq_true_2 | apply Hnew]. }
  assert (H2 : ConfigClass.get second.1 key
               = match dataset2 !! key with
                 | Some v => Some (ConfigClass.Str v)
                 | None => Some (ConfigClass.Ref (ConfigClass.next h + 7 + i))
                 end).
  { subst second. rewrite Config_from_field, decide_False by done.
    destruct (dataset2 !! key); [by rewrite bool_decide_eq_true_2|].
    rewrite Hnew. subst first. by rewrite Config_from_next, Config_new_next. }
  assert (Hne : ConfigClass.get first.1 key ≠ ConfigClass.get second.1 key).
  { rewrite H1, H2. destruct (dataset1 !! key), (dataset2 !! key);
      try discriminate; [by destruct Hnone|]. intros [= ?]. lia. }
  split; apply (Config_equals_false _ _ key); try done.
  - subst first. by rewrite Config_from_keys.
  - subst second. by rewrite Config_from_keys.
Qed.

Lemma Config_equals_fresh_witness :
  let h := ConfigClass.mkHeap ∅ 0 in
  let dataset : gmap string string := {[ "shapes" := "<a> <b> <c> ." ]} in
  let first := ConfigClass.from dataset "en" h in
  let second := ConfigClass.from dataset "en" first.2 in
  ConfigClass.equals first.1 (Some second.1) = false
  ∧ ConfigClass.equals second.1 (Some first.1) = false.
Proof.
  intros h dataset first second.
  apply (Config_equals_fresh dataset dataset "en" "en" h "_theme").
  - compute_done.
  - left. reflexivity.
Defined.

(** X17.  [equals] answers [false] for [undefined] and [null], [true]
    for the Config itself, and is symmetric between Configs made by
    [Config.from]. *)
Theorem Config_equals_laws (this : ConfigClass.JSObject) :
  ConfigClass.equals this None = false
  ∧ ConfigClass.equals this (Some this) = true
  ∧ ∀ (dataset1 dataset2 : gmap string string) (nav1 nav2 : string)
      (h1 h2 : ConfigClass.Heap),
      ConfigClass.equals (ConfigClass.from dataset1 nav1 h1).1
        (Some (ConfigClass.from dataset2 nav2 h2).1)
      = ConfigClass.equals (ConfigClass.from dataset2 nav2 h2).1
          (Some (ConfigClass.from dataset1 nav1 h1).1).
Proof.
  split_and!; [done| |].
  - unfold ConfigClass.equals. apply forallb_forall. intros key _.
    by apply bool_decide_eq_true.
  - intros. unfold ConfigClass.equals. rewrite !Config_from_keys.
    generalize (ConfigClass.from dataset1 nav1 h1).1
               (ConfigClass.from dataset2 nav2 h2).1.
    intros c1 c2.
    induction ConfigClass.fields as [|key ks IH]; cbn [forallb]; [done|].
    rewrite IH. f_equal. apply bool_decide_ext. split; congruence.
Qed.

Lemma kebab_upper (c : ascii) :
  ConfigClass.is_upper c = true →
  ConfigClass.is_upper (JS.lower_ascii c) = false
  ∧ ConfigClass.is_lower (JS.lower_ascii c) = true
  ∧ ascii_of_nat (nat_of_ascii (JS.lower_ascii c) - 32) = c.
Proof. destruct c as [[] [] [] [] [] [] [] []]; intros H; try discriminate H; done. Qed.

Lemma dataset_name_other (c : ascii) (s : string) :
  c ≠ "-"%char →
  ConfigClass.dataset_name (String c s) = String c (ConfigClass.dataset_name s).
Proof. destruct c as [[] [] [] [] [] [] [] []]; intros H; try done; by destruct s. Qed.

Lemma dataset_name_hyphen (s : string) :
  match s with
  | String c _ => ConfigClass.is_lower c = false
  | EmptyString => True
  end →
  ConfigClass.dataset_name (String "-" s) = String "-" (ConfigClass.dataset_name s).
Proof. destruct s as [|c s]; [done|]. simpl. by intros ->. Qed.

(** X18.  The attribute name made of a key has no upper-case letter, is
    the key itself when the key has none, and is mapped back to the key by
    the naming rule of [dataset] when the key has no hyphen. *)
Theorem Config_kebab (key : string) :
  Forall (λ c, ConfigClass.is_upper c = false)
         (list_ascii_of_string (ConfigClass.kebab key))
  ∧ (Forall (λ c, ConfigClass.is_upper c = false) (list_ascii_of_string key) →
     ConfigClass.kebab key = key)
  ∧ ("-"%char ∉ list_ascii_of_string key →
     ConfigClass.dataset_name (ConfigClass.kebab key) = key).
Proof.
  split_and!.
  - induction key as [|c key IH]; simpl; [constructor|].
    destruct (ConfigClass.is_upper c) eqn:Hc; simpl.
    + constructor; [done|]. constructor; [|done]. by apply kebab_upper.
    + by constructor.
  - induction key as [|c key IH]; simpl; [done|].
    intros [Hc Hkey]%Forall_cons. rewrite Hc. f_equal. by apply IH.
  - induction key as [|c key IH]; simpl; [done|].
    intros [Hc Hkey]%not_elem_of_cons. specialize (IH Hkey).
    destruct (ConfigClass.is_upper c) eqn:Hup.
    + destruct (kebab_upper c Hup) as (_ & Hlow & Hback).
      cbn [ConfigClass.dataset_name]. by rewrite Hlow, Hback, IH.
    + rewrite dataset_name_other by done. by rewrite IH.
Qed.

Lemma Config_kebab_witness :
  ConfigClass.kebab "submit" = "submit"
  ∧ ConfigClass.dataset_name (ConfigClass.kebab "loadOwlImports") = "loadOwlImports".
Proof.
  split.
  - apply (Config_kebab "submit"). compute_done.
  - apply (Config_kebab "loadOwlImports"). compute_done.
Defined.

(** X19.  Every attribute name that [keysAsDataAttributes] lists
    is [data-] followed by the kebab form of a public field of Config, the
    [dataset] of an element names that attribute by the field, and
    [Config.from] reads a non-empty value of it into that field. *)
Theorem Config_attributes_are_read (h : ConfigClass.Heap) (attribute : string) :
  attribute ∈ (ConfigClass.keysAsDataAttributes h).1 →
  ∃ key : string,
    attribute = ("data-" ++ ConfigClass.kebab key)
    ∧ ConfigClass.dataset_name (ConfigClass.kebab key) = key
    ∧ key ∈ ConfigClass.fields
    ∧ (key ∉ ConfigClass.private_fields)
    ∧ ∀ (dataset : gmap string string) (nav v : string) (h' : ConfigClass.Heap),
        dataset !! key = Some v → v ≠ "" →
        ConfigClass.get (ConfigClass.from dataset nav h').1 key
        = Some (ConfigClass.Str v).
Proof.
  intros Hin.
  assert (Hlist : (ConfigClass.keysAsDataAttributes h).1
                  = map (λ key, "data-" ++ ConfigClass.kebab key)
                        ["shapes"; "shapesUrl"; "shapeSubject"; "values"; "valuesUrl";
                         "valueSubject"; "language"; "loadOwlImports"; "submitButton"])
    by reflexivity.
  rewrite Hlist in Hin. apply list_elem_of_fmap in Hin as (key & -> & Hkey).
  exists key. split; [done|].
  assert (Hread : ∀ (dataset : gmap string string) (nav v : string) h',
            key ∈ ConfigClass.fields → dataset !! key = Some v → v ≠ "" →
            ConfigClass.get (ConfigClass.from dataset nav h').1 key
            = Some (ConfigClass.Str v)).
  { intros dataset nav v h' Hf Hv Hne. rewrite Config_from_field.
    case_decide as Hlang.
    - subst key. rewrite Hv. apply truthy_spec in Hne. by rewrite Hne.
    - by rewrite Hv, bool_decide_eq_true_2. }
  apply list_elem_of_In in Hkey. simpl in Hkey.
  destruct Hkey as [<-|[<-|[<-|[<-|[<-|[<-|[<-|[<-|[<-|[]]]]]]]]]];
    (split_and!; [reflexivity | compute_done | compute_done |]);
    intros dataset nav v h' Hv Hne; apply Hread; try done; compute_done.
Qed.

Lemma Config_attributes_are_read_witness :
  ∃ key : string,
    "data-shape-subject" = ("data-" ++ ConfigClass.kebab key)
    ∧ ConfigClass.dataset_name (ConfigClass.kebab key) = key
    ∧ key ∈ ConfigClass.fields.
Proof.
  destruct (Config_attributes_are_read (ConfigClass.mkHeap ∅ 0) "data-shape-subject")
    as (key & Hname & Hback & Hfield & _).
  - compute_done.
  - exists key. by split_and!.
Defined.

Lemma registerPrefixes_union (prefixes own : gmap string ConfigClass.PrefixValue) :
  map_fold (λ key v own, <[key := v]> own) own prefixes = prefixes ∪ own.
Proof.
  apply (map_fold_weak_ind (λ r m, r = m ∪ own)).
  - by rewrite (left_id_L ∅ (∪)).
  - intros i x m r Hi ->. by rewrite insert_union_l.
Qed.

(** X20.  Registering prefixes adds them to the prefix object of
    the Config itself, the object stays the same: a registered prefix
    replaces one of the same name and the others stay.  No other object
    changes.  Registering in two steps is registering the union at once,
    with the later step winning.  Registering nothing never fails, but
    registering something fails when the field was overwritten by a string. *)
Theorem Config_registerPrefixes (prefixes own : gmap string ConfigClass.PrefixValue)
    (this : ConfigClass.JSObject) (h : ConfigClass.Heap) (a : nat) :
  ConfigClass.prefixes this = Some (ConfigClass.Ref a) →
  ConfigClass.cells h !! a = Some (ConfigClass.Prefixes own) →
  (∃ h' : ConfigClass.Heap,
     ConfigClass.registerPrefixes prefixes this h = Some h'
     ∧ ConfigClass.cells h' !! a = Some (ConfigClass.Prefixes (prefixes ∪ own))
     ∧ (∀ key, (prefixes ∪ own) !! key
               = match prefixes !! key with
                 | Some v => Some v
                 | None => own !! key
                 end)
     ∧ (∀ b, b ≠ a → ConfigClass.cells h' !! b = ConfigClass.cells h !! b)
     ∧ ConfigClass.next h' = ConfigClass.next h
     ∧ ∀ more : gmap string ConfigClass.PrefixValue,
         ∃ h'', ConfigClass.registerPrefixes more this h' = Some h''
                ∧ ConfigClass.registerPrefixes (more ∪ prefixes) this h = Some h'')
  ∧ (∀ (s : string) (that : ConfigClass.JSObject),
       ConfigClass.prefixes that = Some (ConfigClass.Str s) →
       ConfigClass.registerPrefixes prefixes that h
       = if decide (prefixes = ∅) then Some h else None).
Proof.
  intros Hthis Hcell. unfold ConfigClass.prefixes in Hthis.
  assert (Hreg : ∀ (m own' : gmap string ConfigClass.PrefixValue) (h0 : ConfigClass.Heap),
    ConfigClass.cells h0 !! a = Some (ConfigClass.Prefixes own') →
    ∃ h1, ConfigClass.registerPrefixes m this h0 = Some h1
          ∧ ConfigClass.cells h1 = <[a := ConfigClass.Prefixes (m ∪ own')]> (ConfigClass.cells h0)
          ∧ ConfigClass.next h1 = ConfigClass.next h0).
  { intros m own' h0 H0. unfold ConfigClass.registerPrefixes.
    destruct (decide (m = ∅)) as [->|Hm].
    - exists h0. split_and!; [done| |done].
      by rewrite (left_id_L ∅ (∪)), insert_id.
    - rewrite Hthis, H0, registerPrefixes_union. eexists. by split_and!. }
  split.
  - destruct (Hreg prefixes own h Hcell) as (h' & Hh' & Hcells & Hnext).
    exists h'. split; [exact Hh'|]. rewrite Hcells. split_and!.
    + by rewrite lookup_insert_eq.
    + intros key. rewrite lookup_union. by destruct (prefixes !! key), (own !! key).
    + intros b Hb. by rewrite lookup_insert_ne.
    + done.
    + intros more.
      destruct (Hreg more (prefixes ∪ own) h') as (h'' & Hh'' & Hcells' & Hnext').
      { by rewrite Hcells, lookup_insert_eq. }
      exists h''. split; [exact Hh''|].
      destruct (Hreg (more ∪ prefixes) own h Hcell) as (k & Hk & Hkc & Hkn).
      rewrite Hk. f_equal. destruct k as [kc kn], h'' as [c'' n''].
      simpl in *. subst. rewrite Hcells, insert_insert_eq, (assoc_L (∪)).
      f_equal. congruence.
  - intros s that Hthat. unfold ConfigClass.prefixes in Hthat.
    unfold ConfigClass.registerPrefixes. by rewrite Hthat.
Qed.

Lemma Config_registerPrefixes_witness :
  let created := ConfigClass.new (ConfigClass.mkHeap ∅ 0) in
  let ex := ConfigClass.PrefixString "http://example.org/" in
  ∃ h', ConfigClass.registerPrefixes {[ "ex" := ex ]} created.1 created.2 = Some h'
        ∧ ConfigClass.cells h' !! 6%nat = Some (ConfigClass.Prefixes {[ "ex" := ex ]}).
Proof.
  intros created ex.
  destruct (Config_registerPrefixes {[ "ex" := ex ]} ∅ created.1 created.2 6)
    as [(h' & Hreg & Hcell & _) _].
  - reflexivity.
  - reflexivity.
  - exists h'. split; [exact Hreg|]. by rewrite Hcell, (right_id_L ∅ (∪)).
Defined.

(** The loop that fills the groups. *)
Lemma push_groups_fold (this : ConfigClass.JSObject) (g : nat) (xs : list string)
    (h : ConfigClass.Heap) (items : list string) :
  ConfigClass.get this "_groups" = Some (ConfigClass.Ref g) →
  ConfigClass.cells h !! g = Some (ConfigClass.Groups items) →
  let h' := fold_left (λ h x, ConfigClass.push_group x this h) xs h in
  ConfigClass.cells h' !! g = Some (ConfigClass.Groups (items ++ xs)%list)
  ∧ (∀ b, b ≠ g → ConfigClass.cells h' !! b = ConfigClass.cells h !! b)
  ∧ ConfigClass.next h' = ConfigClass.next h.
Proof.
  intros Hthis. revert h items. induction xs as [|x xs IH]; intros h items Hcell; simpl.
  - by rewrite app_nil_r.
  - assert (Hpush : ConfigClass.push_group x this h
                    = ConfigClass.mkHeap
                        (<[g := ConfigClass.Groups (items ++ [x])]> (ConfigClass.cells h))
                        (ConfigClass.next h)).
    { unfold ConfigClass.push_group. by rewrite Hthis, Hcell. }
    rewrite Hpush.
    destruct (IH (ConfigClass.mkHeap
                    (<[g := ConfigClass.Groups (items ++ [x])]> (ConfigClass.cells h))
                    (ConfigClass.next h)) (items ++ [x])%list) as (Hg & Hother & Hnext).
    { simpl. by rewrite lookup_insert_eq. }
    split_and!.
    + by rewrite Hg, <- app_assoc.
    + intros b Hb. rewrite Hother by done. simpl. by rewrite lookup_insert_ne.
    + by rewrite Hnext.
Qed.

(** X21.  Assigning a shapes graph stores the very store passed,
    and replaces the lists and the groups by new objects: the lists are those
    extracted from the store, the groups are the subjects of its
    PropertyGroup quads, one per quad and in their order, whatever the lists
    and groups were before.  No object that existed before is changed and
    the other fields of the Config keep their values. *)
Theorem Config_set_shapesGraph (RDF_PREDICATE_TYPE SHAPES_GRAPH : ConfigClass.Node)
    (extractLists : list ConfigClass.Quad → option (gmap string (list Term)))
    (graph : nat) (quads : list ConfigClass.Quad) (extracted : gmap string (list Term))
    (this : ConfigClass.JSObject) (h : ConfigClass.Heap) :
  ConfigClass.cells h !! graph = Some (ConfigClass.Graph quads) →
  extractLists quads = Some extracted →
  ∃ (this' : ConfigClass.JSObject) (h' : ConfigClass.Heap),
    ConfigClass.set_shapesGraph RDF_PREDICATE_TYPE SHAPES_GRAPH extractLists graph this h
    = ConfigClass.Returned this' h'
    ∧ ConfigClass.shapesGraph this' = Some (ConfigClass.Ref graph)
    ∧ ConfigClass.lists this' = Some (ConfigClass.Ref (ConfigClass.next h))
    ∧ ConfigClass.groups this' = Some (ConfigClass.Ref (S (ConfigClass.next h)))
    ∧ ConfigClass.cells h' !! ConfigClass.next h = Some (ConfigClass.Lists extracted)
    ∧ ConfigClass.cells h' !! S (ConfigClass.next h)
      = Some (ConfigClass.Groups
                (map (λ q, ConfigClass.node_value (ConfigClass.quad_subject q))
                   (ConfigClass.getQuads RDF_PREDICATE_TYPE
                      (ConfigClass.NodeTerm
                         (TermNamedNode (namedNode (PREFIX_SHACL ++ "PropertyGroup"))))
                      SHAPES_GRAPH quads)))
    ∧ (∀ b, (b < ConfigClass.next h)%nat →
            ConfigClass.cells h' !! b = ConfigClass.cells h !! b)
    ∧ (∀ key, key ∉ ["_shapesGraph"; "_lists"; "_groups"] →
              ConfigClass.get this' key = ConfigClass.get this key).
Proof.
  intros Hgraph Hlists. unfold ConfigClass.set_shapesGraph. rewrite Hgraph, Hlists.
  cbn [ConfigClass.alloc ConfigClass.next ConfigClass.cells].
  set (this' := ConfigClass.set "_groups" _ _).
  set (h1 := ConfigClass.mkHeap _ _).
  assert (Hgroups : ConfigClass.get this' "_groups"
                    = Some (ConfigClass.Ref (S (ConfigClass.next h)))).
  { subst this'. by rewrite Config_get_set, decide_True. }
  assert (Hcell : ConfigClass.cells h1 !! S (ConfigClass.next h)
                  = Some (ConfigClass.Groups [])).
  { subst h1. simpl. by rewrite lookup_insert_eq. }
  assert (Hmap : ∀ (qs : list ConfigClass.Quad) (h0 : ConfigClass.Heap),
            fold_left (λ h q, ConfigClass.push_group
                                (ConfigClass.node_value (ConfigClass.quad_subject q))
                                this' h) qs h0
            = fold_left (λ h x, ConfigClass.push_group x this' h)
                (map (λ q, ConfigClass.node_value (ConfigClass.quad_subject q)) qs) h0).
  { induction qs as [|q qs IH]; intros h0; simpl; [done|]. apply IH. }
  rewrite Hmap.
  destruct (push_groups_fold this' (S (ConfigClass.next h))
              (map (λ q, ConfigClass.node_value (ConfigClass.quad_subject q))
                 (ConfigClass.getQuads RDF_PREDICATE_TYPE
                    (ConfigClass.NodeTerm
                       (TermNamedNode (namedNode (PREFIX_SHACL ++ "PropertyGroup"))))
                    SHAPES_GRAPH quads)) h1 [] Hgroups Hcell) as (Hg & Hother & Hnext).
  eexists _, _. split; [reflexivity|]. split_and!.
  - unfold ConfigClass.shapesGraph. subst this'.
    rewrite !Config_get_set. by repeat case_decide.
  - unfold ConfigClass.lists. subst this'.
    rewrite !Config_get_set. by repeat case_decide.
  - exact Hgroups.
  - rewrite Hother by lia. subst h1. simpl.
    rewrite lookup_insert_ne by lia. by rewrite lookup_insert_eq.
  - exact Hg.
  - intros b Hb. rewrite Hother by lia. subst h1. simpl.
    by rewrite !lookup_insert_ne by lia.
  - intros key Hkey. subst this'. rewrite !Config_get_set.
    repeat case_decide; try done; subst key; exfalso; apply Hkey; compute_done.
Qed.

Lemma Config_set_shapesGraph_witness :
  let type := ConfigClass.NodeTerm (TermNamedNode (namedNode (PREFIX_RDF ++ "type"))) in
  let shapes := ConfigClass.NodeTerm (TermNamedNode (namedNode "shapes")) in
  let group :=
    ConfigClass.NodeTerm (TermNamedNode (namedNode (PREFIX_SHACL ++ "PropertyGroup"))) in
  let quads :=
    [ConfigClass.mkQuad (ConfigClass.BlankNode "b0") type group shapes;
     ConfigClass.mkQuad
        (ConfigClass.NodeTerm (TermNamedNode (namedNode "http://example.org/Person")))
        type
        (ConfigClass.NodeTerm (TermNamedNode (namedNode (PREFIX_SHACL ++ "NodeShape"))))
        shapes] in
  let created :=
    ConfigClass.new (ConfigClass.mkHeap {[ 0%nat := ConfigClass.Graph quads ]} 1) in
  ∃ this' h',
    ConfigClass.set_shapesGraph type shapes (λ _, Some ∅) 0 created.1 created.2
    = ConfigClass.Returned this' h'
    ∧ ConfigClass.groups this' = Some (ConfigClass.Ref 9)
    ∧ ConfigClass.cells h' !! 9%nat = Some (ConfigClass.Groups ["b0"]).
Proof.
  intros type shapes group quads created.
  destruct (Config_set_shapesGraph type shapes (λ _, Some ∅) 0 quads ∅
              created.1 created.2)
    as (this' & h' & Hset & _ & _ & Hgroups & _ & Hcell & _).
  - reflexivity.
  - reflexivity.
  - exists this', h'. split_and!; [exact Hset | exact Hgroups | exact Hcell].
Defined.

(** X22.  The assignment of a shapes graph writes the
    field before it reads the store.  When the lists cannot be extracted the
    assignment raises and leaves the Config with the new store and with the
    lists and groups of the old one; nothing is created. *)
Theorem Config_set_shapesGraph_raises (RDF_PREDICATE_TYPE SHAPES_GRAPH : ConfigClass.Node)
    (extractLists : list ConfigClass.Quad → option (gmap string (list Term)))
    (graph : nat) (quads : list ConfigClass.Quad)
    (this : ConfigClass.JSObject) (h : ConfigClass.Heap) :
  ConfigClass.cells h !! graph = Some (ConfigClass.Graph quads) →
  extractLists quads = None →
  ∃ this' : ConfigClass.JSObject,
    ConfigClass.set_shapesGraph RDF_PREDICATE_TYPE SHAPES_GRAPH extractLists graph this h
    = ConfigClass.Raised this' h
    ∧ (ConfigClass.shapesGraph this ≠ None →
       ConfigClass.shapesGraph this' = Some (ConfigClass.Ref graph)
       ∧ ConfigClass.keys this' = ConfigClass.keys this)
    ∧ ConfigClass.lists this' = ConfigClass.lists this
    ∧ ConfigClass.groups this' = ConfigClass.groups this
    ∧ (∀ key, key ≠ "_shapesGraph" → ConfigClass.get this' key = ConfigClass.get this key).
Proof.
  intros Hgraph Hlists. unfold ConfigClass.set_shapesGraph. rewrite Hgraph, Hlists.
  eexists. split; [reflexivity|].
  unfold ConfigClass.shapesGraph, ConfigClass.lists, ConfigClass.groups.
  rewrite !Config_get_set. split_and!.
  - intros Hown. split; [by rewrite decide_True|].
    apply Config_keys_set.
    destruct (decide ("_shapesGraph" ∈ ConfigClass.keys this)) as [Hin|Hout]; [done|].
    by apply Config_get_None in Hout.
  - by rewrite decide_False.
  - by rewrite decide_False.
  - intros key Hkey. rewrite Config_get_set. by rewrite decide_False.
Qed.

Lemma Config_set_shapesGraph_raises_witness :
  let node := ConfigClass.NodeTerm (TermNamedNode (namedNode "shapes")) in
  let created :=
    ConfigClass.new (ConfigClass.mkHeap {[ 0%nat := ConfigClass.Graph [] ]} 1) in
  ∃ this',
    ConfigClass.set_shapesGraph node node (λ _, None) 0 created.1 created.2
    = ConfigClass.Raised this' created.2
    ∧ ConfigClass.lists this' = Some (ConfigClass.Ref 2).
Proof.
  intros node created.
  destruct (Config_set_shapesGraph_raises node node (λ _, None) 0 [] created.1 created.2)
    as (this' & Hset & _ & Hlists & _).
  - reflexivity.
  - reflexivity.
  - exists this'. split; [exact Hset|]. by rewrite Hlists.
Defined.
